(** * Agent configuration validation (specify_cli/backend/validation.py)

    A shallow embedding of the [AgentValidator] class and of
    [validate_agent_standards], followed by the properties of the
    conformance validator that the specification states.

    Conventions of the embedding.
    - A Python [str] is a Rocq [string]; a character is a code point below
      256 (the Latin-1 range), which fixes what [\s] and [str.lower] do.
    - A [pathlib.Path] is the list of its segments.  The filesystem is a
      read-only snapshot given by three observations ([exists], [read_text],
      [glob]); [glob] returns the entries in the order the operating system
      lists them.
    - A Python [dict] whose iteration order is observable (the registry, the
      detected agents) is an association list in insertion order; the
      per-agent [paths] dictionary, which is only looked up, is a [gmap].
    - The two mutable lists of the validator are threaded through the
      methods: a method takes [self] and returns the updated [self].
    - [KeyError] on a registry lookup is the [None] of the option monad. *)

From Stdlib Require Import Ascii NArith.
From stdpp Require Import gmap strings list.

Set Warnings "-clear-no-such-hyp".

(** ** Python string operations *)

Module PyStr.

Definition LF : ascii := "010"%char.

(** [s.startswith(pre)] *)
Fixpoint startswith (s pre : string) : bool :=
  match pre with
  | EmptyString => true
  | String a pre' =>
      match s with
      | EmptyString => false
      | String b s' => if Ascii.eqb a b then startswith s' pre' else false
      end
  end.

(** [s[n:]] *)
Fixpoint drop (n : nat) (s : string) : string :=
  match n, s with
  | S n', String _ s' => drop n' s'
  | _, _ => s
  end.

(** [s.partition(sep)] when [sep] occurs in [s]: the text before the
    leftmost occurrence and the text after it. *)
Fixpoint partition (s sep : string) : option (string * string) :=
  if startswith s sep then Some (EmptyString, drop (String.length sep) s)
  else match s with
       | EmptyString => None
       | String c s' =>
           match partition s' sep with
           | Some (before, after) => Some (String c before, after)
           | None => None
           end
       end.

(** [sub in s] *)
Definition contains (s sub : string) : bool :=
  match partition s sub with Some _ => true | None => false end.

(** [s.split(sep, maxsplit)] for a non-empty [sep] *)
Fixpoint split (s sep : string) (maxsplit : nat) : list string :=
  match maxsplit with
  | O => [s]
  | S n =>
      match partition s sep with
      | Some (before, after) => before :: split after sep n
      | None => [s]
      end
  end.

(** [s.split(sep)] for a one-character [sep], no limit *)
Fixpoint split_char (s : string) (sep : ascii) : list string :=
  match s with
  | EmptyString => [EmptyString]
  | String c s' =>
      if Ascii.eqb c sep then EmptyString :: split_char s' sep
      else match split_char s' sep with
           | w :: ws => String c w :: ws
           | [] => [String c EmptyString]
           end
  end.

(** [sep.join(l)] *)
Fixpoint join (sep : string) (l : list string) : string :=
  match l with
  | [] => ""
  | [x] => x
  | x :: rest => x +:+ sep +:+ join sep rest
  end.

(** [c.lower()] on the Latin-1 range: A-Z and the accented capitals
    (all of 192..222 but the multiplication sign) move up by 32. *)
Definition lower_char (c : ascii) : ascii :=
  let n := N_of_ascii c in
  if ((65 <=? n) && (n <=? 90) ||
      (192 <=? n) && (n <=? 222) && negb (n =? 215))%N
  then ascii_of_N (n + 32) else c.

Fixpoint lower (s : string) : string :=
  match s with
  | EmptyString => EmptyString
  | String c s' => String (lower_char c) (lower s')
  end.

(** What [\s] matches in a [str] pattern: the characters for which
    [str.isspace()] holds. *)
Definition isspace (c : ascii) : bool :=
  let n := N_of_ascii c in
  ((9 <=? n) && (n <=? 13) || (28 <=? n) && (n <=? 32) ||
   (n =? 133) || (n =? 160))%N.

End PyStr.

(** ** The fragment of [re] the validator uses

    Every pattern of the module is [^] followed by literals separated by
    [\s*], searched with [re.MULTILINE].  Each literal starts with a
    character that is not white space, so the greedy [\s*] never has to
    give a character back and matching is a single left-to-right scan. *)

Module Re.

Inductive atom : Type :=
| WsStar                (* \s*     *)
| Lit (l : string).     (* literal *)

Fixpoint skip_ws (s : string) : string :=
  match s with
  | EmptyString => EmptyString
  | String c s' => if PyStr.isspace c then skip_ws s' else s
  end.

(** The pattern matches a prefix of [s]. *)
Fixpoint match_here (p : list atom) (s : string) : bool :=
  match p with
  | [] => true
  | WsStar :: p' => match_here p' (skip_ws s)
  | Lit l :: p' =>
      if PyStr.startswith s l
      then match_here p' (PyStr.drop (String.length l) s) else false
  end.

(** The pattern matches right after some newline of [s]. *)
Fixpoint match_after_newline (p : list atom) (s : string) : bool :=
  match s with
  | EmptyString => false
  | String c s' =>
      (if Ascii.eqb c PyStr.LF then match_here p s' else false)
      || match_after_newline p s'
  end.

(** [re.search('^' + p, s, re.MULTILINE) is not None] *)
Definition search_multiline (p : list atom) (s : string) : bool :=
  match_here p s || match_after_newline p s.

End Re.

(** ** Paths and the filesystem snapshot *)

Definition Path : Type := list string.

(** [p / s]: pathlib drops empty segments and [.] segments of [s]
    (so [".claude/"] contributes the one segment [".claude"]).  The
    registry names folders relative to the project root. *)
Definition path_segments (s : string) : list string :=
  filter (λ seg, seg ≠ "" ∧ seg ≠ ".") (PyStr.split_char s "/"%char).

Definition pjoin (p : Path) (s : string) : Path := p ++ path_segments s.

Infix "//" := pjoin (at level 40, left associativity).

(** [p.relative_to(root)] for a path built below [root], which is the
    case at every call of the module. *)
Definition relative_to (p root : Path) : Path := List.skipn (length root) p.

(** [str(p)] of a relative path *)
Definition path_str (p : Path) : string :=
  match p with
  | [] => "."
  | _ => PyStr.join "/" p
  end.

Record FileSystem : Type := {
  (** [p.exists()] *)
  fs_exists : Path → bool;
  (** [p.read_text(encoding="utf-8")]: the content, or the text of the
      exception raised *)
  fs_read_text : Path → string + string;
  (** [list(p.glob(pattern))] in the order of the directory listing *)
  fs_glob : Path → string → list Path
}.

(** ** Data model *)

(** An entry of the registry ([AGENT_CONFIG]). *)
Record AgentConfig : Type := {
  name : string;
  folder : option string;
  install_url : option string;
  requires_cli : bool
}.

(** A finding is the dictionary appended to [issues] or [warnings]; the
    keys ["severity"] and ["file"] are not always there. *)
Record Finding : Type := {
  agent : string;
  category : string;
  severity : option string;
  file : option string;
  message : string
}.

(** The attributes of an [AgentValidator] instance. *)
Record AgentValidator : Type := {
  project_root : Path;
  agent_config : list (string * AgentConfig);
  issues : list Finding;
  warnings : list Finding
}.

Definition __init__ (project_root : Path)
    (agent_config : list (string * AgentConfig)) : AgentValidator :=
  {| project_root := project_root; agent_config := agent_config;
     issues := []; warnings := [] |}.

(** [self.issues.append(f)] *)
Definition issues_append (f : Finding) (self : AgentValidator) : AgentValidator :=
  {| project_root := project_root self; agent_config := agent_config self;
     issues := issues self ++ [f]; warnings := warnings self |}.

(** [self.warnings.append(f)] *)
Definition warnings_append (f : Finding) (self : AgentValidator) : AgentValidator :=
  {| project_root := project_root self; agent_config := agent_config self;
     issues := issues self; warnings := warnings self ++ [f] |}.

(** *** Insertion-ordered dictionaries *)

(** [d[k]], [None] standing for [KeyError] *)
Fixpoint dict_get {V : Type} (k : string) (d : list (string * V)) : option V :=
  match d with
  | [] => None
  | (k', v) :: d' => if decide (k = k') then Some v else dict_get k d'
  end.

(** [d[k] = v]: a key already there keeps its position *)
Fixpoint dict_set {V : Type} (k : string) (v : V) (d : list (string * V))
    : list (string * V) :=
  match d with
  | [] => [(k, v)]
  | (k', v') :: d' =>
      if decide (k = k') then (k, v) :: d' else (k', v') :: dict_set k v d'
  end.

(** [str(x)] of an optional string, as an f-string prints it *)
Definition str_of_optional (x : option string) : string :=
  match x with Some s => s | None => "None" end.

(** ** Detection *)

Section Detection.

Context (fs : FileSystem).

(** [if p.exists(): paths[role] = p] *)
Definition probe (role : string) (p : Path) (paths : gmap string Path)
    : gmap string Path :=
  if fs_exists fs p then <[role := p]> paths else paths.

(** The [rules] directory with its rules file as context file. *)
Definition probe_rules (agent_dir : Path) (rules_file : string)
    (paths : gmap string Path) : gmap string Path :=
  let rules_dir := agent_dir // "rules" in
  if fs_exists fs rules_dir
  then probe "context_file" (rules_dir // rules_file) (<["rules" := rules_dir]> paths)
  else paths.

(** The body of [if agent_dir.exists():] in [_detect_agents]: the
    [paths] dictionary of one agent, before the test on its keys. *)
Definition detect_paths (root : Path) (agent_key : string) (agent_dir : Path)
    : gmap string Path :=
  let paths : gmap string Path := {["dir" := agent_dir]} in
  if decide (agent_key = "claude") then
    let paths := probe "context_file" (root // "CLAUDE.md") paths in
    probe "commands" (agent_dir // "commands") paths
  else if decide (agent_key = "gemini") then
    let paths := probe "context_file" (root // "GEMINI.md") paths in
    probe "commands" (agent_dir // "commands") paths
  else if decide (agent_key = "copilot") then
    let agents_dir := agent_dir // "agents" in
    let prompts_dir := agent_dir // "prompts" in
    let paths := probe "agents" agents_dir paths in
    let paths := probe "prompts" prompts_dir paths in
    let instructions :=
      if fs_exists fs agents_dir
      then Some (agents_dir // "copilot-instructions.md") else None in
    match instructions with
    | Some i => probe "context_file" i paths
    | None => paths
    end
  else if decide (agent_key = "cursor-agent") then
    let paths := probe_rules agent_dir "specify-rules.mdc" paths in
    probe "commands" (agent_dir // "commands") paths
  else if decide (agent_key = "qwen") then
    let paths := probe "context_file" (root // "QWEN.md") paths in
    probe "commands" (agent_dir // "commands") paths
  else if decide (agent_key = "opencode") then
    probe "commands" (agent_dir // "command") paths
  else if decide (agent_key = "codex") then
    probe "prompts" (agent_dir // "prompts") paths
  else if decide (agent_key = "windsurf") then
    let paths := probe_rules agent_dir "specify-rules.md" paths in
    probe "workflows" (agent_dir // "workflows") paths
  else if decide (agent_key = "kilocode") then
    let paths := probe_rules agent_dir "specify-rules.md" paths in
    probe "workflows" (agent_dir // "workflows") paths
  else if decide (agent_key = "auggie") then
    let paths := probe_rules agent_dir "specify-rules.md" paths in
    probe "commands" (agent_dir // "commands") paths
  else if decide (agent_key = "roo") then
    probe_rules agent_dir "specify-rules.md" paths
  else if decide (agent_key = "codebuddy") then
    let paths := probe "context_file" (root // "CODEBUDDY.md") paths in
    probe "commands" (agent_dir // "commands") paths
  else if decide (agent_key = "qoder") then
    let paths := probe "context_file" (root // "QODER.md") paths in
    probe "commands" (agent_dir // "commands") paths
  else if decide (agent_key ∈ ["q"; "amp"; "bob"]) then
    let paths := probe "context_file" (root // "AGENTS.md") paths in
    if decide (agent_key = "q") then
      probe "prompts" (agent_dir // "prompts") paths
    else if decide (agent_key = "amp") then
      probe "commands" (agent_dir // "commands") paths
    else if decide (agent_key = "bob") then
      probe "commands" (agent_dir // "commands") paths
    else paths
  else if decide (agent_key = "shai") then
    let paths := probe "context_file" (root // "SHAI.md") paths in
    probe "commands" (agent_dir // "commands") paths
  else paths.

(** One iteration of the loop of [_detect_agents]. *)
Definition detect_step (root : Path)
    (detected : list (string * gmap string Path))
    (item : string * AgentConfig) : list (string * gmap string Path) :=
  let '(agent_key, config) := item in
  match folder config with
  | None => detected
  | Some f =>
      let agent_dir := root // f in
      if fs_exists fs agent_dir then
        let paths := detect_paths root agent_key agent_dir in
        if bool_decide (dom paths ≠ {["dir"]})
        then dict_set agent_key paths detected
        else detected
      else detected
  end.

Definition _detect_agents (self : AgentValidator)
    : list (string * gmap string Path) :=
  foldl (detect_step (project_root self)) [] (agent_config self).

End Detection.

(** ** The checks *)

Section Checks.

Context (fs : FileSystem).

Definition _get_expected_extension (agent_key : string) : string :=
  if decide (agent_key ∈ ["gemini"; "qwen"]) then "toml"
  else if decide (agent_key = "copilot") then "agent.md"
  else "md".

(** The dictionary of a structural error. *)
Definition structure_error (agent_key msg : string) : Finding :=
  {| agent := agent_key; category := "structure"; severity := Some "error";
     file := None; message := msg |}.

(** The dictionary of a structural warning. *)
Definition structure_warning (agent_key msg : string) : Finding :=
  {| agent := agent_key; category := "structure"; severity := None;
     file := None; message := msg |}.

(** [f"Expected {what} directory not found: {d.relative_to(self.project_root)}"] *)
Definition expected_dir_message (self : AgentValidator) (what : string)
    (d : Path) : string :=
  "Expected " +:+ what +:+ " directory not found: "
    +:+ path_str (relative_to d (project_root self)).

Definition _check_directory_structure (agent_key agent_name : string)
    (paths : gmap string Path) (self : AgentValidator) : option AgentValidator :=
  config ← dict_get agent_key (agent_config self);
  let expected_folder := folder config in
  match paths !! "dir" with
  | None =>
      Some (issues_append
              (structure_error agent_key
                 ("Agent directory not found: " +:+ str_of_optional expected_folder))
              self)
  | Some agent_dir =>
      if decide (agent_key ∈ ["claude"; "gemini"; "cursor-agent"; "qwen";
                              "opencode"; "codebuddy"; "qoder"; "shai"]) then
        let commands_dir := agent_dir // "commands" in
        if negb (fs_exists fs commands_dir)
        then Some (warnings_append
                     (structure_warning agent_key
                        (expected_dir_message self "commands" commands_dir))
                     self)
        else Some self
      else if decide (agent_key = "copilot") then
        let agents_dir := agent_dir // "agents" in
        let prompts_dir := agent_dir // "prompts" in
        let self :=
          if negb (fs_exists fs agents_dir)
          then issues_append
                 (structure_error agent_key
                    (expected_dir_message self "agents" agents_dir)) self
          else self in
        let self :=
          if negb (fs_exists fs prompts_dir)
          then warnings_append
                 (structure_warning agent_key
                    (expected_dir_message self "prompts" prompts_dir)) self
          else self in
        Some self
      else if decide (agent_key ∈ ["windsurf"; "kilocode"]) then
        let workflows_dir := agent_dir // "workflows" in
        let rules_dir := agent_dir // "rules" in
        let self :=
          if negb (fs_exists fs workflows_dir)
          then warnings_append
                 (structure_warning agent_key
                    (expected_dir_message self "workflows" workflows_dir)) self
          else self in
        let self :=
          if negb (fs_exists fs rules_dir)
          then warnings_append
                 (structure_warning agent_key
                    (expected_dir_message self "rules" rules_dir)) self
          else self in
        Some self
      else Some self
  end.

(** An error on a file: [category], [file] and [message] vary. *)
Definition file_error (agent_key cat : string) (relative_path : Path)
    (msg : string) : Finding :=
  {| agent := agent_key; category := cat; severity := Some "error";
     file := Some (path_str relative_path); message := msg |}.

(** A warning on a file. *)
Definition file_warning (agent_key cat : string) (relative_path : Path)
    (msg : string) : Finding :=
  {| agent := agent_key; category := cat; severity := None;
     file := Some (path_str relative_path); message := msg |}.

Definition _validate_markdown_format (agent_key : string) (cmd_file : Path)
    (content : string) (self : AgentValidator) : AgentValidator :=
  let relative_path := relative_to cmd_file (project_root self) in
  if negb (PyStr.startswith content "---") then
    issues_append
      (file_error agent_key "format" relative_path
         "Missing YAML frontmatter (should start with ---)") self
  else
    let parts := PyStr.split content "---" 2 in
    match parts with
    | _ :: frontmatter :: body :: _ =>
        let self :=
          if negb (Re.search_multiline [Re.WsStar; Re.Lit "description:"] frontmatter)
          then issues_append
                 (file_error agent_key "format" relative_path
                    "Missing 'description:' field in YAML frontmatter") self
          else self in
        let self :=
          if negb (PyStr.contains body "{SCRIPT}")
             && negb (PyStr.contains (PyStr.lower body) "scripts/")
          then warnings_append
                 (file_warning agent_key "content" relative_path
                    "No {SCRIPT} placeholder or script reference found in command body")
                 self
          else self in
        if negb (PyStr.contains body "$ARGUMENTS")
           && negb (PyStr.contains body "{ARGS}")
           && negb (PyStr.contains body "{{args}}")
        then warnings_append
               (file_warning agent_key "content" relative_path
                  "No argument placeholder ($ARGUMENTS, {ARGS}, {{args}}) found in command body")
               self
        else self
    | _ =>
        (* len(parts) < 3 *)
        issues_append
          (file_error agent_key "format" relative_path
             "Invalid YAML frontmatter format") self
    end.

Definition _validate_toml_format (agent_key : string) (cmd_file : Path)
    (content : string) (self : AgentValidator) : AgentValidator :=
  let relative_path := relative_to cmd_file (project_root self) in
  let self :=
    if negb (Re.search_multiline
               [Re.WsStar; Re.Lit "description"; Re.WsStar; Re.Lit "="] content)
    then issues_append
           (file_error agent_key "format" relative_path
              "Missing 'description =' field in TOML file") self
    else self in
  let self :=
    if negb (Re.search_multiline
               [Re.WsStar; Re.Lit "prompt"; Re.WsStar; Re.Lit "="] content)
    then issues_append
           (file_error agent_key "format" relative_path
              "Missing 'prompt =' field in TOML file") self
    else self in
  if negb (PyStr.contains content "{{args}}") && PyStr.contains content "$ARGUMENTS"
  then warnings_append
         (file_warning agent_key "format" relative_path
            "TOML format should use {{args}} instead of $ARGUMENTS") self
  else self.

Definition _validate_copilot_format (agent_key : string) (cmd_file : Path)
    (content : string) (self : AgentValidator) : AgentValidator :=
  let relative_path := relative_to cmd_file (project_root self) in
  if negb (PyStr.startswith content "---") then
    issues_append
      (file_error agent_key "format" relative_path
         "Missing YAML frontmatter (should start with ---)") self
  else
    let parts := PyStr.split content "---" 2 in
    match parts with
    | _ :: frontmatter :: _ :: _ =>
        let self :=
          if negb (Re.search_multiline [Re.WsStar; Re.Lit "mode:"] frontmatter)
          then warnings_append
                 (file_warning agent_key "format" relative_path
                    "Missing 'mode:' field in YAML frontmatter (recommended for Copilot)")
                 self
          else self in
        if negb (Re.search_multiline [Re.WsStar; Re.Lit "description:"] frontmatter)
        then issues_append
               (file_error agent_key "format" relative_path
                  "Missing 'description:' field in YAML frontmatter") self
        else self
    | _ =>
        issues_append
          (file_error agent_key "format" relative_path
             "Invalid YAML frontmatter format") self
    end.

Definition _validate_command_file (agent_key agent_name : string)
    (cmd_file : Path) (file_type : string) (self : AgentValidator)
    : AgentValidator :=
  match fs_read_text fs cmd_file with
  | inr e =>
      issues_append
        (file_error agent_key "commands"
           (relative_to cmd_file (project_root self))
           ("Failed to read " +:+ file_type +:+ " file: " +:+ e)) self
  | inl content =>
      if decide (agent_key ∈ ["gemini"; "qwen"]) then
        _validate_toml_format agent_key cmd_file content self
      else if decide (agent_key = "copilot") then
        _validate_copilot_format agent_key cmd_file content self
      else
        _validate_markdown_format agent_key cmd_file content self
  end.

Definition _check_command_files (agent_key agent_name : string)
    (commands_dir : Path) (file_type : string) (self : AgentValidator)
    : AgentValidator :=
  if negb (fs_exists fs commands_dir) then self
  else
    let extension := _get_expected_extension agent_key in
    let command_files := fs_glob fs commands_dir ("*." +:+ extension) in
    match command_files with
    | [] =>
        warnings_append
          {| agent := agent_key; category := "commands"; severity := None;
             file := None;
             message := "No " +:+ file_type +:+ " files found in "
               +:+ path_str (relative_to commands_dir (project_root self)) |}
          self
    | _ =>
        foldl (λ self cmd_file,
                 _validate_command_file agent_key agent_name cmd_file file_type self)
              self command_files
    end.

End Checks.

Section Validation.

Context (fs : FileSystem).

Definition context_warning (agent_key : string) (relative_path : Path)
    (msg : string) : Finding :=
  file_warning agent_key "context" relative_path msg.

Definition _check_context_file (agent_key agent_name : string)
    (context_file : Path) (self : AgentValidator) : AgentValidator :=
  let relative_path := relative_to context_file (project_root self) in
  match fs_read_text fs context_file with
  | inr e =>
      issues_append
        (file_error agent_key "context" relative_path
           ("Failed to read context file: " +:+ e)) self
  | inl content =>
      let self :=
        if PyStr.contains content "<!-- MANUAL ADDITIONS START -->" then
          if negb (PyStr.contains content "<!-- MANUAL ADDITIONS END -->")
          then warnings_append
                 (context_warning agent_key relative_path
                    "Found MANUAL ADDITIONS START marker but missing END marker")
                 self
          else self
        else self in
      let self :=
        if PyStr.contains content "[PROJECT NAME]"
        then warnings_append
               (context_warning agent_key relative_path
                  "Context file contains unreplaced [PROJECT NAME] placeholder")
               self
        else self in
      let self :=
        if PyStr.contains content "[DATE]"
        then warnings_append
               (context_warning agent_key relative_path
                  "Context file contains unreplaced [DATE] placeholder") self
        else self in
      if negb (PyStr.contains content "Active Technologies")
         && negb (PyStr.contains content "Technologies")
      then warnings_append
             (context_warning agent_key relative_path
                "Context file may be missing 'Active Technologies' section") self
      else self
  end.

Definition required_commands : list string :=
  ["specify"; "plan"; "tasks"; "implement";
   "constitution"; "clarify"; "analyze"; "checklist"].

(** The file looked for, for one required command. *)
Definition required_command_file (agent_key : string) (commands_dir : Path)
    (extension cmd : string) : Path :=
  if decide (agent_key = "copilot")
  then commands_dir // ("speckit-" +:+ cmd +:+ ".agent.md")
  else commands_dir // (cmd +:+ "." +:+ extension).

(** The directory [_check_required_commands] looks into. *)
Definition required_commands_dir (paths : gmap string Path) : option Path :=
  match paths !! "commands" with
  | Some d => Some d
  | None =>
      match paths !! "workflows" with
      | Some d => Some d
      | None =>
          match paths !! "prompts" with
          | Some d => Some d
          | None => paths !! "agents"
          end
      end
  end.

(** The loop that collects [missing_commands]. *)
Definition missing_commands (agent_key : string) (commands_dir : Path)
    (extension : string) : list string :=
  foldl (λ missing cmd,
           let cmd_file := required_command_file agent_key commands_dir extension cmd in
           if negb (fs_exists fs cmd_file) then missing ++ [cmd] else missing)
        [] required_commands.

Definition _check_required_commands (agent_key agent_name : string)
    (paths : gmap string Path) (self : AgentValidator) : AgentValidator :=
  match required_commands_dir paths with
  | None => self
  | Some commands_dir =>
      if negb (fs_exists fs commands_dir) then self
      else
        let extension := _get_expected_extension agent_key in
        match missing_commands agent_key commands_dir extension with
        | [] => self
        | missing =>
            warnings_append
              {| agent := agent_key; category := "commands"; severity := None;
                 file := None;
                 message := "Missing expected spec-kit commands: "
                   +:+ PyStr.join ", " missing |}
              self
        end
  end.

Definition _validate_agent (agent_key : string) (paths : gmap string Path)
    (self : AgentValidator) : option AgentValidator :=
  config ← dict_get agent_key (agent_config self);
  let agent_name := name config in
  self ← _check_directory_structure fs agent_key agent_name paths self;
  let self :=
    match paths !! "commands" with
    | Some d => _check_command_files fs agent_key agent_name d "command" self
    | None =>
        match paths !! "workflows" with
        | Some d => _check_command_files fs agent_key agent_name d "workflow" self
        | None =>
            match paths !! "prompts" with
            | Some d => _check_command_files fs agent_key agent_name d "prompt" self
            | None => self
            end
        end
    end in
  let self :=
    match paths !! "context_file" with
    | Some c => _check_context_file agent_key agent_name c self
    | None => self
    end in
  Some (_check_required_commands agent_key agent_name paths self).

(** [for agent_key, agent_paths in detected_agents.items():
       self._validate_agent(agent_key, agent_paths)] *)
Fixpoint validate_each (detected : list (string * gmap string Path))
    (self : AgentValidator) : option AgentValidator :=
  match detected with
  | [] => Some self
  | (agent_key, agent_paths) :: rest =>
      self ← _validate_agent agent_key agent_paths self;
      validate_each rest self
  end.

Definition no_agent_warning : Finding :=
  {| agent := "none"; category := "detection"; severity := None;
     file := None;
     message := "No AI agent configurations detected in project" |}.

(** What [validate_all] returns, with the validator as it leaves it. *)
Record Outcome : Type := {
  success : bool;
  out_issues : list Finding;
  out_warnings : list Finding;
  final : AgentValidator
}.

Definition validate_all (self : AgentValidator) : option Outcome :=
  let detected_agents := _detect_agents fs self in
  match detected_agents with
  | [] =>
      let self := warnings_append no_agent_warning self in
      Some {| success := true; out_issues := [];
              out_warnings := warnings self; final := self |}
  | _ =>
      self ← validate_each detected_agents self;
      Some {| success := Nat.eqb (length (issues self)) 0;
              out_issues := issues self;
              out_warnings := warnings self; final := self |}
  end.

Definition validate_agent_standards (project_root : Path)
    (agent_config : list (string * AgentConfig)) : option Outcome :=
  let validator := __init__ project_root agent_config in
  validate_all validator.

End Validation.

(** ** Concrete snapshots

    A snapshot given by its directories and its text files, in listing
    order; used to run the validator on examples. *)

Module Snapshot.

(** [name.endswith(suffix)] *)
Definition endswith (s suffix : string) : bool :=
  PyStr.startswith (String.rev s) (String.rev suffix).

Definition parent (p : Path) : Path := removelast p.

Definition basename (p : Path) : string := List.last p "".

(** [fnmatch] of a pattern [*suffix] *)
Definition matches (pattern name : string) : bool :=
  match pattern with
  | String "*"%char suffix => endswith name suffix
  | _ => bool_decide (pattern = name)
  end.

Definition make (dirs : list Path) (files : list (Path * string)) : FileSystem :=
  {| fs_exists p := bool_decide (p ∈ dirs) || bool_decide (p ∈ files.*1);
     fs_read_text p :=
       match list_find (λ f, f.1 = p) files with
       | Some (_, (_, content)) => inl content
       | None => inr "[Errno 2] No such file or directory"
       end;
     fs_glob d pattern :=
       filter (λ p, parent p = d ∧ matches pattern (basename p) = true) files.*1 |}.

End Snapshot.

(** ** Vocabulary of the properties *)

(** [self'] is [self] after some appends: the same root and registry,
    the new issues all satisfy [P] and the new warnings all satisfy [Q]. *)
Definition extends (P Q : Finding → Prop) (self self' : AgentValidator) : Prop :=
  project_root self' = project_root self ∧
  agent_config self' = agent_config self ∧
  (∃ i, issues self' = issues self ++ i ∧ Forall P i) ∧
  (∃ w, warnings self' = warnings self ++ w ∧ Forall Q w).

(** The message is the one of the [if "dir" not in paths] branch. *)
Definition dir_not_found (f : Finding) : bool :=
  PyStr.startswith (message f) "Agent directory not found".

(** What holds of an error recorded for one of the agents [ks]. *)
Definition issue_ok (ks : list string) (f : Finding) : Prop :=
  agent f ∈ ks ∧ severity f = Some "error" ∧ dir_not_found f = false.

(** What holds of a warning recorded for one of the agents [ks]. *)
Definition warning_ok (ks : list string) (f : Finding) : Prop :=
  agent f ∈ ks ∧ severity f = None ∧ dir_not_found f = false.

(** The roles of a [paths] dictionary besides ["dir"]. *)
Definition sub_roles : list string :=
  ["commands"; "workflows"; "prompts"; "rules"; "agents"; "context_file"].

(** An entry of the detected dictionary comes from a registry entry whose
    folder exists and for which some role besides ["dir"] resolved. *)
Definition detected_from (fs : FileSystem) (root : Path)
    (reg : list (string * AgentConfig)) (entry : string * gmap string Path) : Prop :=
  ∃ cfg f, (entry.1, cfg) ∈ reg ∧ folder cfg = Some f ∧
    fs_exists fs (root // f) = true ∧
    entry.2 = detect_paths fs root entry.1 (root // f) ∧
    dom entry.2 ≠ {["dir"]}.


(** The name of the file of a required command, as the specification
    gives it: [speckit-<name>.agent.md] for copilot, [<name>.<ext>] for
    the others. *)
Definition required_file_name (agent_key cmd : string) : string :=
  if decide (agent_key = "copilot") then "speckit-" +:+ cmd +:+ ".agent.md"
  else cmd +:+ "." +:+ _get_expected_extension agent_key.

(** The roles a required-command directory is taken from, by precedence. *)
Definition precedence : list string := ["commands"; "workflows"; "prompts"; "agents"].

(** The one warning of the required-command check. *)
Definition missing_commands_warning (agent_key : string) (missing : list string)
    : Finding :=
  {| agent := agent_key; category := "commands"; severity := None; file := None;
     message := "Missing expected spec-kit commands: " +:+ PyStr.join ", " missing |}.

(** The invalid-frontmatter error of a command file. *)
Definition invalid_frontmatter_error (self : AgentValidator) (agent_key : string)
    (cmd_file : Path) : Finding :=
  {| agent := agent_key; category := "format"; severity := Some "error";
     file := Some (path_str (relative_to cmd_file (project_root self)));
     message := "Invalid YAML frontmatter format" |}.

(** The severity reading under which every finding carries a severity
    field: [error] in the issues list, [warning] in the warnings list. *)
Definition severity_field_everywhere (out : Outcome) : Prop :=
  Forall (λ f, severity f = Some "error") (out_issues out) ∧
  Forall (λ f, severity f = Some "warning") (out_warnings out).

(** What the detector keeps true of a [paths] dictionary for the agent
    directory [agent_dir]: ["dir"] is there, and any other key is one of
    the six roles and is bound to a path that exists. *)
Definition paths_inv (fs : FileSystem) (agent_dir : Path)
    (paths : gmap string Path) : Prop :=
  paths !! "dir" = Some agent_dir ∧
  ∀ role p, paths !! role = Some p → role ≠ "dir" →
            role ∈ sub_roles ∧ fs_exists fs p = true.

(** The agents whose structural check expects one artifact root. *)
Definition single_root_family : list string :=
  ["claude"; "gemini"; "cursor-agent"; "qwen"; "opencode"; "codebuddy";
   "qoder"; "shai"].

(** *** The convention table

    The per-agent conventions of the detector as data: for each agent key,
    the roles it declares and where each is looked for, from the project
    root or from the agent directory. *)

Inductive anchor : Type := ProjectRoot | AgentDir.

Definition Convention : Type := list (string * anchor * list string).

Definition context_and_commands (context_file : string) : Convention :=
  [("context_file", ProjectRoot, [context_file]);
   ("commands", AgentDir, ["commands"])].

Definition rules_with (rules_file : string) : Convention :=
  [("rules", AgentDir, ["rules"]);
   ("context_file", AgentDir, ["rules"; rules_file])].

Definition convention (agent_key : string) : Convention :=
  if decide (agent_key = "claude") then context_and_commands "CLAUDE.md"
  else if decide (agent_key = "gemini") then context_and_commands "GEMINI.md"
  else if decide (agent_key = "copilot") then
    [("agents", AgentDir, ["agents"]); ("prompts", AgentDir, ["prompts"]);
     ("context_file", AgentDir, ["agents"; "copilot-instructions.md"])]
  else if decide (agent_key = "cursor-agent") then
    rules_with "specify-rules.mdc" ++ [("commands", AgentDir, ["commands"])]
  else if decide (agent_key = "qwen") then context_and_commands "QWEN.md"
  else if decide (agent_key = "opencode") then [("commands", AgentDir, ["command"])]
  else if decide (agent_key = "codex") then [("prompts", AgentDir, ["prompts"])]
  else if decide (agent_key = "windsurf") then
    rules_with "specify-rules.md" ++ [("workflows", AgentDir, ["workflows"])]
  else if decide (agent_key = "kilocode") then
    rules_with "specify-rules.md" ++ [("workflows", AgentDir, ["workflows"])]
  else if decide (agent_key = "auggie") then
    rules_with "specify-rules.md" ++ [("commands", AgentDir, ["commands"])]
  else if decide (agent_key = "roo") then rules_with "specify-rules.md"
  else if decide (agent_key = "codebuddy") then context_and_commands "CODEBUDDY.md"
  else if decide (agent_key = "qoder") then context_and_commands "QODER.md"
  else if decide (agent_key ∈ ["q"; "amp"; "bob"]) then
    ("context_file", ProjectRoot, ["AGENTS.md"]) ::
    (if decide (agent_key = "q") then [("prompts", AgentDir, ["prompts"])]
     else if decide (agent_key = "amp") then [("commands", AgentDir, ["commands"])]
     else if decide (agent_key = "bob") then [("commands", AgentDir, ["commands"])]
     else [])
  else if decide (agent_key = "shai") then context_and_commands "SHAI.md"
  else [].

Definition convention_path (root agent_dir : Path) (a : anchor)
    (segs : list string) : Path :=
  foldl pjoin (match a with ProjectRoot => root | AgentDir => agent_dir end) segs.

(** A role of the table resolves when its path exists. *)
Definition resolves (fs : FileSystem) (root agent_dir : Path) (tbl : Convention)
    (role : string) (p : Path) : Prop :=
  ∃ a segs, (role, a, segs) ∈ tbl ∧
            p = convention_path root agent_dir a segs ∧ fs_exists fs p = true.

(** [paths] holds, besides ["dir"], exactly the roles of [tbl] that resolve. *)
Definition table_of (fs : FileSystem) (root agent_dir : Path)
    (paths : gmap string Path) (tbl : Convention) : Prop :=
  ∀ role p, role ≠ "dir" →
            paths !! role = Some p ↔ resolves fs root agent_dir tbl role p.

(** In a tree, what exists has a parent that exists. *)
Definition hierarchical (fs : FileSystem) : Prop :=
  ∀ p s, fs_exists fs (p // s) = true → fs_exists fs p = true.

(** ** Examples to run the validator on *)

Module Examples.

Definition root : Path := ["proj"].

Definition entry (key nm : string) (dir : option string) : string * AgentConfig :=
  (key, {| name := nm; folder := dir; install_url := None; requires_cli := false |}).

(** The registry of the test script, with the meta-entry of the tool. *)
Definition registry : list (string * AgentConfig) :=
  [entry "copilot" "GitHub Copilot" (Some ".github/");
   entry "claude" "Claude Code" (Some ".claude/");
   entry "gemini" "Gemini CLI" (Some ".gemini/");
   entry "cursor-agent" "Cursor" (Some ".cursor/");
   entry "qwen" "Qwen Code" (Some ".qwen/");
   entry "opencode" "opencode" (Some ".opencode/");
   entry "codex" "Codex CLI" (Some ".codex/");
   entry "windsurf" "Windsurf" (Some ".windsurf/");
   entry "kilocode" "Kilo Code" (Some ".kilocode/");
   entry "auggie" "Auggie CLI" (Some ".augment/");
   entry "codebuddy" "CodeBuddy" (Some ".codebuddy/");
   entry "qoder" "Qoder CLI" (Some ".qoder/");
   entry "roo" "Roo Code" (Some ".roo/");
   entry "q" "Amazon Q Developer CLI" (Some ".amazonq/");
   entry "amp" "Amp" (Some ".agents/");
   entry "shai" "SHAI" (Some ".shai/");
   entry "bob" "IBM Bob" (Some ".bob/");
   entry "all" "All Agents" None].

Definition line (s rest : string) : string := s +:+ String PyStr.LF rest.

(** [---\ndescription: x\n---\nBody referencing scripts/ and $ARGUMENTS] *)
Definition good_command : string :=
  line "---" (line "description: x" (line "---"
    "Body referencing scripts/ and $ARGUMENTS")).

(** A frontmatter that is opened and never closed. *)
Definition unclosed_command : string :=
  line "---" (line "description: x" "Body referencing scripts/ and $ARGUMENTS").

(** Nothing below the project root. *)
Definition empty_project : FileSystem := Snapshot.make [] [].


(** An opencode project with its [command] directory and the eight
    commands in it. *)
Definition opencode_project : FileSystem :=
  let command_dir := root // ".opencode/" // "command" in
  Snapshot.make [root // ".opencode/"; command_dir]
    (map (λ cmd, (command_dir // (cmd +:+ ".md"), good_command)) required_commands).


(** A claude project whose only command has an unclosed frontmatter. *)
Definition unclosed_project : FileSystem :=
  let commands_dir := root // ".claude/" // "commands" in
  Snapshot.make [root // ".claude/"; commands_dir]
    [(commands_dir // "specify.md", unclosed_command)].

End Examples.

(** * The rest of the package

    The summary of [validation.py], the [validate] command of
    [frontend/cli.py] that reports a pass, and the tool and script helpers
    of [backend/system.py]. *)

(** ** The summary of a validator *)

(** [_group_by_agent]: every finding of the module has its ["agent"] key,
    so the default of [item.get("agent", "unknown")] is never taken. *)
Definition _group_by_agent (items : list Finding) : list (string * nat) :=
  foldl (λ grouped item,
           let a := agent item in
           dict_set a (default 0 (dict_get a grouped) + 1) grouped)
        [] items.

Record Summary : Type := {
  total_issues : nat;
  total_warnings : nat;
  errors_by_agent : list (string * nat);
  warnings_by_agent : list (string * nat)
}.

Definition get_summary (self : AgentValidator) : Summary :=
  {| total_issues := length (issues self);
     total_warnings := length (warnings self);
     errors_by_agent := _group_by_agent (issues self);
     warnings_by_agent := _group_by_agent (warnings self) |}.

(** ** The [validate] command *)

Module Cli.

(** The grouping loop of [validate], run once on the issues and once on
    the warnings before they are printed:
    [if agent not in by_agent: by_agent[agent] = []] and then
    [by_agent[agent].append(item)]. *)
Definition group_by_agent (items : list Finding) : list (string * list Finding) :=
  foldl (λ by_agent item,
           let a := agent item in
           let by_agent :=
             match dict_get a by_agent with
             | None => dict_set a [] by_agent
             | Some _ => by_agent
             end in
           dict_set a (default [] (dict_get a by_agent) ++ [item]) by_agent)
        [] items.

(** The exit status of [validate]: [typer.Exit(1)] is [1], a return is
    [0].  What the command prints is left out.  [is_dir] is
    [project_path.is_dir()]. *)
Definition validate (fs : FileSystem) (is_dir : Path → bool)
    (project_path : Path) (agent_config : list (string * AgentConfig))
    : option nat :=
  if negb (fs_exists fs project_path) then Some 1
  else if negb (is_dir project_path) then Some 1
  else
    out ← validate_agent_standards fs project_path agent_config;
    match out_issues out, out_warnings out with
    | [], [] => Some 0
    | _ :: _, _ => Some 1
    | [], _ :: _ => Some 0
    end.

End Cli.

(** ** Tools and scripts ([backend/system.py]) *)

Module System.

(** What the helpers ask the machine: [shutil.which(tool) is not None],
    and [CLAUDE_LOCAL_PATH.exists() and CLAUDE_LOCAL_PATH.is_file()]. *)
Record Environment : Type := {
  which : string → bool;
  claude_local_is_file : bool
}.

(** [check_tool(tool)] with no tracker. *)
Definition check_tool (env : Environment) (tool : string) : bool :=
  if decide (tool = "claude") then
    if claude_local_is_file env then true else which env tool
  else which env tool.

Definition detect_installed_agents (env : Environment)
    (agent_config : list (string * AgentConfig)) : list string :=
  foldl (λ installed item,
           let '(agent_key, config) := item in
           if decide (agent_key = "all") then installed
           else if negb (requires_cli config) then installed ++ [agent_key]
           else if check_tool env agent_key then installed ++ [agent_key]
           else installed)
        [] agent_config.

(** The mode [ensure_executable_scripts] gives a script of mode [mode]:
    [0o400], [0o040], [0o004] are 256, 32, 4 and [0o100], [0o010],
    [0o001] are 64, 8, 1. *)
Definition new_mode (mode : Z) : Z :=
  let new_mode := mode in
  let new_mode :=
    if decide (Z.land mode 256 ≠ 0)%Z then Z.lor new_mode 64 else new_mode in
  let new_mode :=
    if decide (Z.land mode 32 ≠ 0)%Z then Z.lor new_mode 8 else new_mode in
  let new_mode :=
    if decide (Z.land mode 4 ≠ 0)%Z then Z.lor new_mode 1 else new_mode in
  if decide (Z.land new_mode 64 = 0)%Z then Z.lor new_mode 64 else new_mode.

(** What the loop observes of one entry of [scripts_root.rglob("*.sh")]:
    its path below the root, [is_symlink()], [is_file()], the two bytes
    read from it ([None] when opening or reading raises), [st_mode], and
    the exception [os.chmod] raises on it, if any ([is_symlink], [is_file]
    and [stat] are taken not to raise). *)
Record Script : Type := {
  script_path : string;
  is_symlink : bool;
  is_file : bool;
  first_two : option string;
  st_mode : Z;
  chmod_raises : option string
}.

(** The modes set, the failures and the count of updated scripts. *)
Record Chmods : Type := {
  chmods : list (string * Z);
  failures : list string;
  updated : nat
}.

(** One iteration of the loop over the scripts. *)
Definition chmod_step (r : Chmods) (script : Script) : Chmods :=
  if is_symlink script || negb (is_file script) then r
  else
    match first_two script with
    | None => r
    | Some magic =>
        if decide (magic ≠ "#!") then r
        else
          let mode := st_mode script in
          if decide (Z.land mode 73 ≠ 0)%Z then r
          else
            match chmod_raises script with
            | None =>
                {| chmods := chmods r ++ [(script_path script, new_mode mode)];
                   failures := failures r; updated := updated r + 1 |}
            | Some e =>
                {| chmods := chmods r;
                   failures := failures r ++ [script_path script +:+ ": " +:+ e];
                   updated := updated r |}
            end
    end.

(** [ensure_executable_scripts] up to its report: [os_nt] is
    [os.name == "nt"], [root_is_dir] is [scripts_root.is_dir()]. *)
Definition ensure_executable_scripts (os_nt root_is_dir : bool)
    (scripts : list Script) : Chmods :=
  let nothing := {| chmods := []; failures := []; updated := 0 |} in
  if os_nt then nothing
  else if negb root_is_dir then nothing
  else foldl chmod_step nothing scripts.

End System.

(** ** Vocabulary of the further properties *)

(** The findings of [segs], one segment per key of [keys], each segment
    holding findings of its key only. *)
Definition segmented (keys : list string) (segs : list (list Finding)) : Prop :=
  Forall2 (λ k seg, Forall (λ f, agent f = k) seg) keys segs.

(** The two shapes of an error of the agent [k]: the structural error of
    copilot, which names no file, and an error on a file. *)
Definition issue_shape (k : string) (f : Finding) : Prop :=
  agent f = k ∧
  ((category f = "structure" ∧ k = "copilot" ∧ file f = None) ∨
   (category f ∈ ["commands"; "format"; "context"] ∧ is_Some (file f))).

(** ** More examples *)

Module MoreExamples.

(** A claude project with its context file and nothing else. *)
Definition guidelines : string := "# [PROJECT NAME] Development Guidelines".

Definition context_project : FileSystem :=
  Snapshot.make [Examples.root // ".claude/"]
    [(Examples.root // "CLAUDE.md", guidelines)].

(** A copilot project with its prompts directory and no agents directory. *)
Definition prompts_only : FileSystem :=
  Snapshot.make
    [Examples.root // ".github/"; Examples.root // ".github/" // "prompts"] [].

End MoreExamples.

(** * Properties *)

(** ** The string operations on examples *)

Example split_at_most_twice :
  PyStr.split "---a---b---c" "---" 2 = [""; "a"; "b---c"].
Proof. reflexivity. Qed.

Example split_unclosed : PyStr.split "---a" "---" 2 = [""; "a"].
Proof. reflexivity. Qed.

Example lower_mixed_case : PyStr.lower "See Scripts/Run.SH" = "see scripts/run.sh".
Proof. reflexivity. Qed.

Example description_on_second_line :
  Re.search_multiline [Re.WsStar; Re.Lit "description:"]
    (Examples.line "title: t" "   description: x") = true.
Proof. reflexivity. Qed.

Example description_inside_a_line :
  Re.search_multiline [Re.WsStar; Re.Lit "description:"]
    "title: t, description: x" = false.
Proof. reflexivity. Qed.

Example toml_prompt_spaced :
  Re.search_multiline [Re.WsStar; Re.Lit "prompt"; Re.WsStar; Re.Lit "="]
    (Examples.line "description = 1" "prompt   = 2") = true.
Proof. reflexivity. Qed.

Example folder_with_trailing_slash :
  Examples.root // ".claude/" // "commands" = ["proj"; ".claude"; "commands"].
Proof. reflexivity. Qed.

(** An unclosed frontmatter in the one command of a claude project: the
    error on the file, and the one warning for the seven other commands. *)
Example unclosed_project_pass :
  (λ out, (success out, out_issues out, out_warnings out))
    <$> validate_agent_standards Examples.unclosed_project
          Examples.root Examples.registry =
  Some (false,
        [file_error "claude" "format" [".claude"; "commands"; "specify.md"]
           "Invalid YAML frontmatter format"],
        [missing_commands_warning "claude"
           ["plan"; "tasks"; "implement"; "constitution"; "clarify";
            "analyze"; "checklist"]]).
Proof. vm_compute. reflexivity. Qed.

(** ** Appending findings *)

Section Extends.

Context (P Q : Finding → Prop).

Lemma extends_refl self : extends P Q self self.
Proof.
  repeat split; [exists [] | exists []]; by rewrite app_nil_r.
Qed.

Lemma extends_trans s1 s2 s3 :
  extends P Q s1 s2 → extends P Q s2 s3 → extends P Q s1 s3.
Proof.
  intros (Hr1 & Hc1 & (i1 & Hi1 & HP1) & (w1 & Hw1 & HQ1))
         (Hr2 & Hc2 & (i2 & Hi2 & HP2) & (w2 & Hw2 & HQ2)).
  repeat split; [congruence | congruence | exists (i1 ++ i2) | exists (w1 ++ w2)].
  - rewrite Hi2, Hi1, <- app_assoc. split; [done | by apply Forall_app].
  - rewrite Hw2, Hw1, <- app_assoc. split; [done | by apply Forall_app].
Qed.

Lemma extends_issue f s1 s2 :
  P f → extends P Q s1 s2 → extends P Q s1 (issues_append f s2).
Proof.
  intros Hf H. eapply extends_trans; [exact H |].
  repeat split; [exists [f] | exists []]; simpl;
    [by split; [| constructor] | by rewrite app_nil_r].
Qed.

Lemma extends_warning f s1 s2 :
  Q f → extends P Q s1 s2 → extends P Q s1 (warnings_append f s2).
Proof.
  intros Hf H. eapply extends_trans; [exact H |].
  repeat split; [exists [] | exists [f]]; simpl;
    [by rewrite app_nil_r | by split; [| constructor]].
Qed.

Lemma extends_foldl {A : Type} (step : AgentValidator → A → AgentValidator)
    (l : list A) :
  (∀ s a, extends P Q s (step s a)) → ∀ s, extends P Q s (foldl step s l).
Proof.
  intros Hstep. induction l as [| a l IH]; intros s; simpl.
  - apply extends_refl.
  - eapply extends_trans; [apply Hstep | apply IH].
Qed.

End Extends.

Lemma extends_weaken (P Q P' Q' : Finding → Prop) s1 s2 :
  (∀ f, P f → P' f) → (∀ f, Q f → Q' f) →
  extends P Q s1 s2 → extends P' Q' s1 s2.
Proof.
  intros HP HQ (Hr & Hc & (i & Hi & Hfi) & (w & Hw & Hfw)).
  repeat split; [done | done | exists i | exists w];
    (split; [done | eapply Forall_impl; eauto]).
Qed.

(** Every append of a check is found by splitting on its tests. *)
Ltac extends_cases :=
  repeat case_match;
  repeat first
    [ apply extends_refl
    | apply extends_issue; [repeat split; solve [reflexivity | set_solver] |]
    | apply extends_warning; [repeat split; solve [reflexivity | set_solver] |] ].

Section ChecksExtend.

Context (fs : FileSystem) (agent_key agent_name : string).

(** The findings of the agent at hand. *)
Local Abbreviation mine := (extends (issue_ok [agent_key]) (warning_ok [agent_key])).

Lemma _validate_markdown_format_extends cmd_file content self :
  mine self (_validate_markdown_format agent_key cmd_file content self).
Proof. unfold _validate_markdown_format. extends_cases. Qed.

Lemma _validate_toml_format_extends cmd_file content self :
  mine self (_validate_toml_format agent_key cmd_file content self).
Proof. unfold _validate_toml_format. extends_cases. Qed.

Lemma _validate_copilot_format_extends cmd_file content self :
  mine self (_validate_copilot_format agent_key cmd_file content self).
Proof. unfold _validate_copilot_format. extends_cases. Qed.

Lemma _validate_command_file_extends cmd_file file_type self :
  mine self
    (_validate_command_file fs agent_key agent_name cmd_file file_type self).
Proof.
  unfold _validate_command_file.
  destruct (fs_read_text fs cmd_file) as [content | e].
  - repeat case_match;
      auto using _validate_markdown_format_extends,
        _validate_toml_format_extends, _validate_copilot_format_extends.
  - extends_cases.
Qed.

Lemma _check_command_files_extends commands_dir file_type self :
  mine self
    (_check_command_files fs agent_key agent_name commands_dir file_type self).
Proof.
  unfold _check_command_files.
  destruct (negb (fs_exists fs commands_dir)); [apply extends_refl |].
  destruct (fs_glob fs commands_dir _) as [| cmd_file files].
  - extends_cases.
  - apply extends_foldl. intros. apply _validate_command_file_extends.
Qed.

Lemma _check_context_file_extends context_file self :
  mine self
    (_check_context_file fs agent_key agent_name context_file self).
Proof. unfold _check_context_file, context_warning. extends_cases. Qed.

Lemma _check_required_commands_extends paths self :
  mine self (_check_required_commands fs agent_key agent_name paths self).
Proof. unfold _check_required_commands. extends_cases. Qed.

Lemma _check_directory_structure_extends paths self :
  is_Some (dict_get agent_key (agent_config self)) →
  is_Some (paths !! "dir") →
  ∃ self', _check_directory_structure fs agent_key agent_name paths self = Some self'
           ∧ mine self self'.
Proof.
  intros [config Hconfig] [agent_dir Hdir].
  unfold _check_directory_structure. rewrite Hconfig, Hdir. simpl.
  repeat case_match; eexists; (split; [reflexivity |]);
    extends_cases.
Qed.

End ChecksExtend.

Lemma _validate_agent_extends fs agent_key paths self :
  is_Some (dict_get agent_key (agent_config self)) →
  is_Some (paths !! "dir") →
  ∃ self', _validate_agent fs agent_key paths self = Some self'
           ∧ extends (issue_ok [agent_key]) (warning_ok [agent_key]) self self'.
Proof.
  intros Hconfig Hdir.
  destruct Hconfig as [config Hconfig].
  destruct (_check_directory_structure_extends fs agent_key (name config)
              paths self (ltac:(by rewrite Hconfig)) Hdir) as (s1 & Hs1 & He1).
  unfold _validate_agent. rewrite Hconfig. cbn [mbind option_bind].
  rewrite Hs1. cbn [mbind option_bind].
  eexists. split; [reflexivity |].
  eapply extends_trans; [| apply _check_required_commands_extends].
  destruct (paths !! "context_file");
    [eapply extends_trans; [| apply _check_context_file_extends] |];
    (destruct (paths !! "commands");
       [| destruct (paths !! "workflows"); [| destruct (paths !! "prompts")]]);
    first [ exact He1
          | eapply extends_trans; [exact He1 | apply _check_command_files_extends] ].
Qed.

(** ** Insertion-ordered dictionaries *)

Lemma dict_set_keys {V : Type} (k k' : string) (v : V) (d : list (string * V)) :
  k' ∈ (dict_set k v d).*1 ↔ k' = k ∨ k' ∈ d.*1.
Proof.
  induction d as [| [k0 v0] d IH]; simpl.
  - set_solver.
  - case_decide; simpl; set_solver.
Qed.

Lemma dict_set_Forall {V : Type} (R : string * V → Prop) k v d :
  Forall R d → R (k, v) → Forall R (dict_set k v d).
Proof.
  intros Hd Hkv. induction Hd as [| [k0 v0] d H0 Hd IH]; simpl.
  - by constructor.
  - case_decide; by constructor.
Qed.

Lemma dict_get_is_Some {V : Type} (k : string) (d : list (string * V)) :
  is_Some (dict_get k d) ↔ k ∈ d.*1.
Proof.
  induction d as [| [k0 v0] d IH]; simpl.
  - split; [by intros [? ?] | by intros ?%elem_of_nil].
  - case_decide; subst.
    + split; [set_solver | eauto].
    + rewrite IH. set_solver.
Qed.

(** ** Detection *)

Section DetectionFacts.

Context (fs : FileSystem).

Lemma paths_inv_init agent_dir : paths_inv fs agent_dir {["dir" := agent_dir]}.
Proof.
  split; [apply lookup_singleton_eq |].
  intros role p Hrole Hne. by rewrite lookup_singleton_ne in Hrole.
Qed.

Lemma paths_inv_insert agent_dir role p paths :
  role ∈ sub_roles → fs_exists fs p = true →
  paths_inv fs agent_dir paths → paths_inv fs agent_dir (<[role := p]> paths).
Proof.
  intros Hrole Hp [Hdir Hsub]. split.
  - rewrite lookup_insert_ne; [done |].
    intros ->. unfold sub_roles in Hrole. set_solver.
  - intros role' p' Hlook Hne.
    destruct (decide (role = role')) as [<- | Hdiff].
    + rewrite lookup_insert_eq in Hlook. by simplify_eq.
    + rewrite lookup_insert_ne in Hlook by done. by apply Hsub.
Qed.

Lemma paths_inv_probe agent_dir role p paths :
  role ∈ sub_roles →
  paths_inv fs agent_dir paths → paths_inv fs agent_dir (probe fs role p paths).
Proof.
  intros Hrole Hinv. unfold probe.
  destruct (fs_exists fs p) eqn:Hp; [by apply paths_inv_insert | done].
Qed.

Lemma paths_inv_probe_rules agent_dir rules_file paths :
  paths_inv fs agent_dir paths →
  paths_inv fs agent_dir (probe_rules fs agent_dir rules_file paths).
Proof.
  intros Hinv. unfold probe_rules.
  destruct (fs_exists fs (agent_dir // "rules")) eqn:Hrules; [| done].
  apply paths_inv_probe; [unfold sub_roles; set_solver |].
  apply paths_inv_insert; [unfold sub_roles; set_solver | done | done].
Qed.

Lemma detect_paths_inv root agent_key agent_dir :
  paths_inv fs agent_dir (detect_paths fs root agent_key agent_dir).
Proof.
  unfold detect_paths.
  repeat case_decide;
    repeat case_match;
    repeat first
      [ apply paths_inv_init
      | apply paths_inv_probe_rules
      | apply paths_inv_probe; [unfold sub_roles; set_solver |] ].
Qed.

(** The test [paths.keys() != {"dir"}] holds exactly when some role
    besides ["dir"] resolved. *)
Lemma keys_beyond_dir agent_dir (paths : gmap string Path) :
  paths !! "dir" = Some agent_dir →
  dom paths ≠ {["dir"]} ↔ ∃ role p, role ≠ "dir" ∧ paths !! role = Some p.
Proof.
  intros Hdir. split.
  - intros Hdom.
    destruct (set_choose_or_empty (dom paths ∖ {["dir"]})) as [[role Hrole] | Hempty].
    + apply elem_of_difference in Hrole as [[p Hp]%elem_of_dom Hne].
      exists role, p. split; [set_solver | done].
    + exfalso. apply Hdom. apply set_eq. intros role.
      rewrite elem_of_singleton. split.
      * intros Hin. destruct (decide (role = "dir")); [done |]. set_solver.
      * intros ->. apply elem_of_dom. eauto.
  - intros (role & p & Hne & Hp) Hdom.
    assert (role ∈ dom paths) as Hin by (apply elem_of_dom; eauto).
    rewrite Hdom in Hin. set_solver.
Qed.

Lemma detect_step_sound root reg item detected :
  item ∈ reg →
  Forall (detected_from fs root reg) detected →
  Forall (detected_from fs root reg) (detect_step fs root detected item).
Proof.
  intros Hitem Hdet. destruct item as [agent_key config]. simpl.
  destruct (folder config) as [f |] eqn:Hfolder; [| done].
  destruct (fs_exists fs (root // f)) eqn:Hexists; [| done].
  case_bool_decide as Hdom; [| done].
  apply dict_set_Forall; [done |].
  exists config, f. by repeat split.
Qed.

Lemma detect_step_keys root item detected k :
  k ∈ detected.*1 → k ∈ (detect_step fs root detected item).*1.
Proof.
  intros Hk. destruct item as [agent_key config]. simpl.
  repeat case_match; try done. apply dict_set_keys. by right.
Qed.

Lemma detect_fold_sound root reg items detected :
  items ⊆ reg →
  Forall (detected_from fs root reg) detected →
  Forall (detected_from fs root reg) (foldl (detect_step fs root) detected items).
Proof.
  revert detected. induction items as [| item items IH]; intros detected Hsub Hdet.
  - done.
  - simpl. apply IH; [set_solver |].
    apply detect_step_sound; [set_solver | done].
Qed.

Lemma detect_fold_keys root items detected k :
  k ∈ detected.*1 → k ∈ (foldl (detect_step fs root) detected items).*1.
Proof.
  revert detected. induction items as [| item items IH]; intros detected Hk.
  - done.
  - simpl. by apply IH, detect_step_keys.
Qed.

Lemma detect_fold_complete root items detected k cfg f :
  (k, cfg) ∈ items → folder cfg = Some f →
  fs_exists fs (root // f) = true →
  dom (detect_paths fs root k (root // f)) ≠ {["dir"]} →
  k ∈ (foldl (detect_step fs root) detected items).*1.
Proof.
  intros Hin Hfolder Hexists Hdom. revert detected.
  induction items as [| item items IH]; intros detected.
  - by apply elem_of_nil in Hin.
  - simpl. apply elem_of_cons in Hin as [<- | Hin]; [| by apply IH].
    apply detect_fold_keys. simpl. rewrite Hfolder, Hexists.
    rewrite bool_decide_eq_true_2 by done.
    apply dict_set_keys. by left.
Qed.

Lemma _detect_agents_sound self :
  Forall (detected_from fs (project_root self) (agent_config self))
         (_detect_agents fs self).
Proof. unfold _detect_agents. by apply detect_fold_sound. Qed.

(** Every detected agent is a key of the registry and has its ["dir"]. *)
Lemma _detect_agents_entries self k paths :
  (k, paths) ∈ _detect_agents fs self →
  k ∈ (agent_config self).*1 ∧ is_Some (paths !! "dir").
Proof.
  intros Hin.
  pose proof (_detect_agents_sound self) as Hall.
  rewrite Forall_forall in Hall.
  destruct (Hall _ Hin) as (cfg & f & Hreg & _ & _ & Hpaths & _). simpl in *.
  split.
  - apply list_elem_of_fmap. by exists (k, cfg).
  - rewrite Hpaths. eexists. apply detect_paths_inv.
Qed.

End DetectionFacts.

(** ** The validation pass *)

Section Pass.

Context (fs : FileSystem).

Lemma issue_ok_mono ks ks' f : ks ⊆ ks' → issue_ok ks f → issue_ok ks' f.
Proof. intros Hsub (Hk & Hsev & Hmsg). split; [set_solver | done]. Qed.

Lemma warning_ok_mono ks ks' f : ks ⊆ ks' → warning_ok ks f → warning_ok ks' f.
Proof. intros Hsub (Hk & Hsev & Hmsg). split; [set_solver | done]. Qed.

(** The loop over the detected agents runs to its end and only appends
    findings of the agents it visits. *)
Lemma validate_each_extends detected self :
  (∀ k paths, (k, paths) ∈ detected →
              k ∈ (agent_config self).*1 ∧ is_Some (paths !! "dir")) →
  ∃ self', validate_each fs detected self = Some self' ∧
           extends (issue_ok detected.*1) (warning_ok detected.*1) self self'.
Proof.
  revert self. induction detected as [| [k paths] rest IH]; intros self Hall.
  - exists self. split; [done | apply extends_refl].
  - destruct (Hall k paths) as [Hk Hdir]; [set_solver |].
    apply dict_get_is_Some in Hk.
    destruct (_validate_agent_extends fs k paths self Hk Hdir) as (s1 & Hs1 & He1).
    destruct (IH s1) as (s2 & Hs2 & He2).
    { intros k' paths' Hin. destruct He1 as (_ & -> & _).
      apply Hall. set_solver. }
    exists s2. simpl. rewrite Hs1. simpl. split; [done |].
    eapply extends_trans.
    + eapply extends_weaken; [| | exact He1]; intros f.
      * apply issue_ok_mono. set_solver.
      * apply warning_ok_mono. set_solver.
    + eapply extends_weaken; [| | exact He2]; intros f.
      * apply issue_ok_mono. set_solver.
      * apply warning_ok_mono. set_solver.
Qed.

(** [validate_all] always returns, in one of two ways. *)
Lemma validate_all_outcome self :
  ∃ out, validate_all fs self = Some out ∧
    ((_detect_agents fs self = [] ∧
      out = {| success := true; out_issues := [];
               out_warnings := warnings self ++ [no_agent_warning];
               final := warnings_append no_agent_warning self |})
     ∨
     (_detect_agents fs self ≠ [] ∧
      extends (issue_ok (_detect_agents fs self).*1)
              (warning_ok (_detect_agents fs self).*1) self (final out) ∧
      out_issues out = issues (final out) ∧
      out_warnings out = warnings (final out) ∧
      success out = Nat.eqb (length (issues (final out))) 0)).
Proof.
  unfold validate_all.
  destruct (_detect_agents fs self) as [| entry detected] eqn:Hdet.
  - eexists. split; [reflexivity |]. by left.
  - destruct (validate_each_extends (entry :: detected) self) as (s1 & Hs1 & He1).
    { intros k paths Hin. rewrite <- Hdet in Hin.
      by apply _detect_agents_entries in Hin. }
    rewrite Hs1. simpl. eexists. split; [reflexivity |].
    right. split; [done |]. split; [exact He1 | done].
Qed.

End Pass.

(** ** Success and the issues list *)

(** C1: the pass succeeds exactly when the issues list is empty.  A fresh
    validator returns with [success = true] if and only if no error
    finding was recorded, whatever the warnings are; on a validator that
    already holds findings, [success] still tells whether the returned
    issues list is empty. *)
Theorem success_iff_no_issues fs root reg :
  (∃ out, validate_agent_standards fs root reg = Some out ∧
          (success out = true ↔ out_issues out = []) ∧
          out_issues out = issues (final out)) ∧
  (∀ self, ∃ out, validate_all fs self = Some out ∧
                  (success out = true ↔ out_issues out = [])).
Proof.
  assert (∀ self, ∃ out, validate_all fs self = Some out ∧
                         (success out = true ↔ out_issues out = []) ∧
                         (issues self = [] → out_issues out = issues (final out)))
    as Hall.
  { intros self.
    destruct (validate_all_outcome fs self)
      as (out & Hout & [[_ ->] | (_ & _ & Hi & _ & Hs)]).
    - exists {| success := true; out_issues := [];
                out_warnings := warnings self ++ [no_agent_warning];
                final := warnings_append no_agent_warning self |}.
      simpl. by repeat split.
    - exists out. split; [done |]. split; [| done].
      rewrite Hs, Hi, Nat.eqb_eq. apply length_zero_iff_nil. }
  split.
  - destruct (Hall (__init__ root reg)) as (out & Hout & Hiff & Hrec).
    exists out. split; [done |]. split; [done | by apply Hrec].
  - intros self. destruct (Hall self) as (out & Hout & Hiff & _). eauto.
Qed.

(** ** No agent detected *)

(** C8: when the detector finds no agent, the pass returns
    [success = true], an empty issues list and the one warning that no
    agent configuration was detected; no error is recorded. *)
Theorem no_agent_detected fs root reg :
  _detect_agents fs (__init__ root reg) = [] →
  ∃ out, validate_agent_standards fs root reg = Some out ∧
         success out = true ∧ out_issues out = [] ∧
         out_warnings out = [no_agent_warning] ∧
         issues (final out) = [].
Proof.
  intros Hnone. unfold validate_agent_standards, validate_all.
  rewrite Hnone. eexists. split; [reflexivity |]. by repeat split.
Qed.

Lemma no_agent_detected_witness :
  _detect_agents Examples.empty_project
    (__init__ Examples.root Examples.registry) = [] ∧
  ∃ out, validate_agent_standards Examples.empty_project
           Examples.root Examples.registry = Some out ∧
         success out = true ∧ out_issues out = [] ∧
         out_warnings out = [no_agent_warning] ∧
         issues (final out) = [].
Proof.
  split; [vm_compute; reflexivity |].
  apply (no_agent_detected Examples.empty_project Examples.root Examples.registry).
  vm_compute. reflexivity.
Defined.

(** ** Severity of the findings *)

(** The findings of a pass of a fresh validator: the errors are in the
    issues list and carry [severity = "error"], the warnings carry no
    severity key, and none is the missing-agent-directory error. *)
Lemma findings_of_pass fs root reg :
  ∃ out, validate_agent_standards fs root reg = Some out ∧
    Forall (λ f, severity f = Some "error" ∧ dir_not_found f = false)
           (out_issues out) ∧
    Forall (λ f, severity f = None ∧ dir_not_found f = false)
           (out_warnings out).
Proof.
  destruct (validate_all_outcome fs (__init__ root reg))
    as (out & Hout & [[_ ->] | (_ & He & Hi & Hw & _)]).
  - eexists. split; [exact Hout |]. simpl. split; [constructor |].
    by repeat constructor.
  - exists out. split; [exact Hout |].
    destruct He as (_ & _ & (i & Hi' & HP) & (w & Hw' & HQ)). simpl in *.
    rewrite Hi, Hi', Hw, Hw'. split.
    + eapply Forall_impl; [exact HP |]. by intros f (_ & ? & ?).
    + eapply Forall_impl; [exact HQ |]. by intros f (_ & ? & ?).
Qed.

(** C4, as the code has it: every finding of the issues list carries
    [severity = "error"]; a finding of the warnings list carries no
    severity key at all, it is a warning by the list it is in. *)
Theorem severity_by_list fs root reg :
  ∃ out, validate_agent_standards fs root reg = Some out ∧
    Forall (λ f, severity f = Some "error") (out_issues out) ∧
    Forall (λ f, severity f = None) (out_warnings out).
Proof.
  destruct (findings_of_pass fs root reg) as (out & Hout & Hi & Hw).
  exists out. split; [done |].
  split; (eapply Forall_impl; [eassumption |]); by intros f [? _].
Qed.

(** C4 as stated fails: the warning of an empty project has no severity. *)
Lemma severity_field_counterexample :
  ∃ out, validate_agent_standards Examples.empty_project
           Examples.root Examples.registry = Some out ∧
         ¬ severity_field_everywhere out.
Proof.
  eexists. split; [vm_compute; reflexivity |].
  intros [_ Hw]. apply Forall_cons in Hw as [Hw _]. discriminate Hw.
Qed.

(** ** The missing-directory error *)

(** C10: every agent the pass validates has the ["dir"] key in its paths,
    so the error [Agent directory not found] is never among the findings. *)
Theorem agent_directory_error_unreachable fs root reg :
  (∀ k paths, (k, paths) ∈ _detect_agents fs (__init__ root reg) →
              is_Some (paths !! "dir")) ∧
  ∃ out, validate_agent_standards fs root reg = Some out ∧
         Forall (λ f, dir_not_found f = false) (out_issues out ++ out_warnings out).
Proof.
  split.
  - intros k paths Hin. by apply _detect_agents_entries in Hin as [_ ?].
  - destruct (findings_of_pass fs root reg) as (out & Hout & Hi & Hw).
    exists out. split; [done |]. apply Forall_app.
    split; (eapply Forall_impl; [eassumption |]); by intros f [_ ?].
Qed.

(** ** The detector *)

Lemma detected_key_entry {V : Type} (k : string) (d : list (string * V)) :
  k ∈ d.*1 → ∃ v, (k, v) ∈ d.
Proof.
  intros ([k' v] & -> & Hin)%list_elem_of_fmap. by exists v.
Qed.

Lemma sub_role_not_dir role : role ∈ sub_roles → role ≠ "dir".
Proof. unfold sub_roles. set_solver. Qed.

(** An agent is detected exactly when an entry of the registry names a
    folder that exists and one of the six roles resolved below it. *)
Lemma detected_iff fs root reg k :
  k ∈ (_detect_agents fs (__init__ root reg)).*1 ↔
  ∃ cfg f, (k, cfg) ∈ reg ∧ folder cfg = Some f ∧
    fs_exists fs (root // f) = true ∧
    ∃ role p, role ∈ sub_roles ∧
      detect_paths fs root k (root // f) !! role = Some p ∧
      fs_exists fs p = true.
Proof.
  split.
  - intros [paths Hin]%detected_key_entry.
    pose proof (_detect_agents_sound fs (__init__ root reg)) as Hall.
    rewrite Forall_forall in Hall.
    destruct (Hall _ Hin) as (cfg & f & Hreg & Hfolder & Hexists & Hpaths & Hdom).
    simpl in *. exists cfg, f. repeat (split; [done |]).
    destruct (detect_paths_inv fs root k (root // f)) as [Hdir Hsub].
    rewrite Hpaths in Hdom.
    apply (keys_beyond_dir _ _ Hdir) in Hdom as (role & p & Hne & Hrole).
    destruct (Hsub role p Hrole Hne). by exists role, p.
  - intros (cfg & f & Hreg & Hfolder & Hexists & role & p & Hrole & Hlook & _).
    unfold _detect_agents. simpl.
    eapply detect_fold_complete; [exact Hreg | exact Hfolder | exact Hexists |].
    destruct (detect_paths_inv fs root k (root // f)) as [Hdir _].
    apply (keys_beyond_dir _ _ Hdir).
    exists role, p. split; [by apply sub_role_not_dir | done].
Qed.

(** *** The detector and the convention table *)

Section Table.

Context (fs : FileSystem) (root agent_dir : Path).

Lemma table_init : table_of fs root agent_dir {["dir" := agent_dir]} [].
Proof.
  intros role p Hne. rewrite lookup_singleton_ne by done. split; [done |].
  intros (a & segs & Hin & _). by apply elem_of_nil in Hin.
Qed.

Lemma table_absent role a segs paths tbl :
  fs_exists fs (convention_path root agent_dir a segs) = false →
  table_of fs root agent_dir paths tbl →
  table_of fs root agent_dir paths ((role, a, segs) :: tbl).
Proof.
  intros Habsent Htbl role' p Hne. rewrite (Htbl role' p Hne). split.
  - intros (a' & segs' & Hin & Hp & Hex). exists a', segs'. set_solver.
  - intros (a' & segs' & Hin & Hp & Hex).
    apply elem_of_cons in Hin as [Heq | Hin]; [| by exists a', segs'].
    simplify_eq. congruence.
Qed.

Lemma table_probe role a segs paths tbl :
  role ∉ tbl.*1.*1 →
  table_of fs root agent_dir paths tbl →
  table_of fs root agent_dir
    (probe fs role (convention_path root agent_dir a segs) paths)
    ((role, a, segs) :: tbl).
Proof.
  intros Hfresh Htbl. unfold probe.
  destruct (fs_exists fs _) eqn:Hex; [| by apply table_absent].
  intros role' p Hne. destruct (decide (role = role')) as [<- | Hdiff].
  - rewrite lookup_insert_eq. split.
    + intros [= <-]. exists a, segs. set_solver.
    + intros (a' & segs' & Hin & Hp & _).
      apply elem_of_cons in Hin as [Heq | Hin]; [by simplify_eq |].
      exfalso. apply Hfresh. apply list_elem_of_fmap. exists (role, a').
      split; [done |]. apply list_elem_of_fmap. by exists (role, a', segs').
  - rewrite lookup_insert_ne by done. rewrite (Htbl role' p Hne). split.
    + intros (a' & segs' & Hin & Hp & Hex'). exists a', segs'. set_solver.
    + intros (a' & segs' & Hin & Hp & Hex').
      apply elem_of_cons in Hin as [Heq | Hin]; [by simplify_eq |].
      by exists a', segs'.
Qed.

Lemma nested_absent (parent : Path) (s : string) :
  hierarchical fs → fs_exists fs parent = false →
  fs_exists fs (parent // s) = false.
Proof.
  intros Hh Hparent. destruct (fs_exists fs (parent // s)) eqn:Hfile; [| done].
  apply Hh in Hfile. congruence.
Qed.

Lemma table_probe_rules rules_file paths tbl :
  hierarchical fs →
  "rules" ∉ tbl.*1.*1 → "context_file" ∉ tbl.*1.*1 →
  table_of fs root agent_dir paths tbl →
  table_of fs root agent_dir (probe_rules fs agent_dir rules_file paths)
    (("context_file", AgentDir, ["rules"; rules_file]) ::
     ("rules", AgentDir, ["rules"]) :: tbl).
Proof.
  intros Hh Hrules Hcontext Htbl. unfold probe_rules.
  destruct (fs_exists fs (agent_dir // "rules")) eqn:Hex.
  - apply (table_probe "context_file" AgentDir ["rules"; rules_file]).
    { simpl. set_solver. }
    pose proof (table_probe "rules" AgentDir ["rules"] paths tbl Hrules Htbl) as H.
    unfold probe in H.
    change (convention_path root agent_dir AgentDir ["rules"])
      with (agent_dir // "rules") in H.
    by rewrite Hex in H.
  - apply table_absent; [by apply nested_absent |].
    by apply table_absent.
Qed.

(** The [paths] of an agent are its convention, read on the snapshot. *)
Lemma detect_paths_table agent_key :
  hierarchical fs →
  table_of fs root agent_dir (detect_paths fs root agent_key agent_dir)
    (reverse (convention agent_key)).
Proof.
  intros Hh. unfold detect_paths, convention, context_and_commands, rules_with.
  repeat case_decide.
  all: try match goal with
       | |- table_of _ _ _ _ (reverse ?l) =>
           let l' := eval vm_compute in (reverse l) in change (reverse l) with l'
       end.
  all: try (destruct (fs_exists fs (agent_dir // "agents")) eqn:Hagents;
            [| apply table_absent; [by apply nested_absent |]]).
  all: repeat first
      [ apply table_init
      | apply (table_probe_rules _ _ _ Hh); [set_solver | set_solver |]
      | apply (table_probe _ AgentDir [_]); [set_solver |]
      | apply (table_probe _ AgentDir [_; _]); [set_solver |]
      | apply (table_probe _ ProjectRoot [_]); [set_solver |] ].
Qed.

Lemma detect_paths_convention agent_key role p :
  hierarchical fs → role ≠ "dir" →
  detect_paths fs root agent_key agent_dir !! role = Some p ↔
  resolves fs root agent_dir (convention agent_key) role p.
Proof.
  intros Hh Hne. rewrite (detect_paths_table agent_key Hh role p Hne).
  unfold resolves. by setoid_rewrite elem_of_reverse.
Qed.

End Table.

(** On a tree, an agent is detected exactly when its folder exists and a
    role of its convention resolves. *)
Lemma detected_by_convention fs root reg k :
  hierarchical fs →
  k ∈ (_detect_agents fs (__init__ root reg)).*1 ↔
  ∃ cfg f, (k, cfg) ∈ reg ∧ folder cfg = Some f ∧
    fs_exists fs (root // f) = true ∧
    ∃ role p, resolves fs root (root // f) (convention k) role p.
Proof.
  intros Hh. rewrite detected_iff. split.
  - intros (cfg & f & Hreg & Hfolder & Hexists & role & p & Hrole & Hlook & _).
    exists cfg, f. repeat (split; [done |]). exists role, p.
    apply detect_paths_convention; [done | by apply sub_role_not_dir | done].
  - intros (cfg & f & Hreg & Hfolder & Hexists & role & p & Hres).
    exists cfg, f. repeat (split; [done |]).
    assert (role ≠ "dir") as Hne.
    { destruct Hres as (a & segs & Hin & _). intros ->.
      revert Hin. unfold convention, context_and_commands, rules_with.
      repeat case_decide; set_solver. }
    apply (detect_paths_convention fs root (root // f) k role p Hh Hne) in Hres.
    destruct (detect_paths_inv fs root k (root // f)) as [_ Hsub].
    destruct (Hsub role p Hres Hne). by exists role, p.
Qed.



(** ** The structural check of the single-root family *)

(** For an agent of the family, the check looks at [commands] under the
    agent directory and warns exactly when it is not there. *)
Lemma single_root_structure fs k nm (paths : gmap string Path) agent_dir self :
  k ∈ single_root_family →
  is_Some (dict_get k (agent_config self)) →
  paths !! "dir" = Some agent_dir →
  _check_directory_structure fs k nm paths self =
    Some (if fs_exists fs (agent_dir // "commands") then self
          else warnings_append
                 (structure_warning k
                    (expected_dir_message self "commands" (agent_dir // "commands")))
                 self).
Proof.
  intros Hk [config Hconfig] Hdir. unfold _check_directory_structure.
  rewrite Hconfig, Hdir. simpl.
  rewrite decide_True by exact Hk.
  by destruct (fs_exists fs (agent_dir // "commands")).
Qed.

(** For every agent of the family but opencode, the directory the
    detector records as [commands] is that same directory. *)
Lemma single_root_detected_commands fs root k agent_dir :
  k ∈ single_root_family → k ≠ "opencode" →
  detect_paths fs root k agent_dir !! "commands" =
    if fs_exists fs (agent_dir // "commands")
    then Some (agent_dir // "commands") else None.
Proof.
  intros Hk Hne. unfold single_root_family in Hk.
  repeat (apply elem_of_cons in Hk as [-> | Hk]); try done;
    try (by apply elem_of_nil in Hk);
    unfold detect_paths, probe_rules, probe; simpl;
    repeat case_match; by simplify_map_eq.
Qed.

(** C3 fails on opencode: the detector records [.opencode/command] as the
    artifact root of opencode, the structural check looks for
    [.opencode/commands].  In a project with [.opencode/command] and the
    eight commands in it, opencode is detected, its artifact root exists,
    and the pass still emits the structural warning: the only finding. *)
Theorem opencode_structural_warning :
  let fs := Examples.opencode_project in
  let command_dir := Examples.root // ".opencode/" // "command" in
  fs_exists fs command_dir = true ∧
  (dict_get "opencode" (_detect_agents fs (__init__ Examples.root Examples.registry))
     ≫= (.!! "commands")) = Some command_dir ∧
  (λ out, (success out, out_issues out, out_warnings out))
    <$> validate_agent_standards fs Examples.root Examples.registry =
  Some (true, [],
        [structure_warning "opencode"
           "Expected commands directory not found: .opencode/commands"]).
Proof. vm_compute. by repeat split. Qed.

(** ** Frontmatter *)

(** A content that starts with the delimiter always splits into at least
    two segments; fewer than three means the delimiter never comes back. *)
Lemma split_after_delimiter content :
  PyStr.startswith content "---" = true →
  PyStr.split content "---" 2 =
    match PyStr.partition (PyStr.drop 3 content) "---" with
    | Some (frontmatter, body) => [""; frontmatter; body]
    | None => [""; PyStr.drop 3 content]
    end.
Proof.
  intros Hstart. unfold PyStr.split.
  destruct content as [| a content]; [discriminate |].
  unfold PyStr.partition at 1. fold PyStr.partition. rewrite Hstart.
  by destruct (PyStr.partition _ "---") as [[frontmatter body] |].
Qed.

(** C5: a command file that starts with [---] and splits into fewer than
    three segments gets the invalid-frontmatter error and nothing else,
    from the markdown validator, from the copilot validator, and so from
    the validation of the file for every agent whose format has a
    frontmatter. *)
Theorem unclosed_frontmatter_single_error fs agent_key agent_name cmd_file
    file_type content self :
  PyStr.startswith content "---" = true →
  length (PyStr.split content "---" 2) < 3 →
  let after := issues_append (invalid_frontmatter_error self agent_key cmd_file) self in
  _validate_markdown_format agent_key cmd_file content self = after ∧
  _validate_copilot_format agent_key cmd_file content self = after ∧
  (fs_read_text fs cmd_file = inl content → agent_key ∉ ["gemini"; "qwen"] →
   _validate_command_file fs agent_key agent_name cmd_file file_type self = after) ∧
  issues after = issues self ++ [invalid_frontmatter_error self agent_key cmd_file] ∧
  warnings after = warnings self.
Proof.
  intros Hstart Hlen after.
  assert (_validate_markdown_format agent_key cmd_file content self = after) as Hmd.
  { unfold _validate_markdown_format. rewrite Hstart. simpl negb. cbv iota.
    destruct (PyStr.split content "---" 2) as [| p0 [| p1 [| p2 parts]]];
      simpl in Hlen; try lia; reflexivity. }
  assert (_validate_copilot_format agent_key cmd_file content self = after) as Hco.
  { unfold _validate_copilot_format. rewrite Hstart. simpl negb. cbv iota.
    destruct (PyStr.split content "---" 2) as [| p0 [| p1 [| p2 parts]]];
      simpl in Hlen; try lia; reflexivity. }
  repeat split; try done.
  intros Hread Hmarkdown. unfold _validate_command_file. rewrite Hread.
  rewrite decide_False by done. by case_decide.
Qed.

Lemma unclosed_frontmatter_single_error_witness :
  let fs := Examples.unclosed_project in
  let cmd_file := Examples.root // ".claude/" // "commands" // "specify.md" in
  let self := __init__ Examples.root Examples.registry in
  let after := issues_append (invalid_frontmatter_error self "claude" cmd_file) self in
  PyStr.startswith Examples.unclosed_command "---" = true ∧
  length (PyStr.split Examples.unclosed_command "---" 2) < 3 ∧
  fs_read_text fs cmd_file = inl Examples.unclosed_command ∧
  _validate_markdown_format "claude" cmd_file Examples.unclosed_command self = after ∧
  _validate_copilot_format "claude" cmd_file Examples.unclosed_command self = after ∧
  _validate_command_file fs "claude" "Claude Code" cmd_file "command" self = after.
Proof.
  intros fs cmd_file self after.
  assert (PyStr.startswith Examples.unclosed_command "---" = true) as Hstart
    by reflexivity.
  assert (length (PyStr.split Examples.unclosed_command "---" 2) < 3) as Hlen
    by (vm_compute; lia).
  assert (fs_read_text fs cmd_file = inl Examples.unclosed_command) as Hread
    by (vm_compute; reflexivity).
  destruct (unclosed_frontmatter_single_error fs "claude" "Claude Code" cmd_file
              "command" Examples.unclosed_command self Hstart Hlen)
    as (Hmd & Hco & Hfile & _).
  repeat (split; [assumption |]).
  apply Hfile; [exact Hread |].
  refine (bool_decide_unpack _ _). vm_compute. exact I.
Defined.

(** C7: the command [---\ndescription: x\n---\nBody referencing scripts/
    and $ARGUMENTS] gets no finding from the markdown validator, whatever
    the agent: it splits into three segments, the frontmatter has its
    [description:] line, and the body has both the script reference and
    the [$ARGUMENTS] placeholder. *)
Theorem good_command_no_findings agent_key cmd_file self :
  let content := Examples.good_command in
  _validate_markdown_format agent_key cmd_file content self = self ∧
  (∀ fs agent_name file_type,
     fs_read_text fs cmd_file = inl content →
     agent_key ∉ ["gemini"; "qwen"] → agent_key ≠ "copilot" →
     _validate_command_file fs agent_key agent_name cmd_file file_type self = self) ∧
  PyStr.startswith content "---" = true ∧
  (∃ frontmatter body,
     PyStr.split content "---" 2 = [""; frontmatter; body] ∧
     Re.search_multiline [Re.WsStar; Re.Lit "description:"] frontmatter = true ∧
     PyStr.contains (PyStr.lower body) "scripts/" = true ∧
     PyStr.contains body "$ARGUMENTS" = true).
Proof.
  split; [reflexivity |]. split.
  { intros fs agent_name file_type Hread Htoml Hcopilot.
    unfold _validate_command_file. rewrite Hread.
    by rewrite !decide_False by done. }
  split; [reflexivity |].
  eexists _, _. split; [reflexivity |]. by vm_compute.
Qed.

(** ** Required commands *)

(** A loop that appends the elements failing a test collects them in order. *)
Lemma collect_failing {A : Type} (test : A → bool) (l acc : list A) :
  foldl (λ missing x, if negb (test x) then missing ++ [x] else missing) acc l =
  acc ++ filter (λ x, test x = false) l.
Proof.
  revert acc. induction l as [| x l IH]; intros acc; simpl.
  - by rewrite app_nil_r.
  - rewrite IH. destruct (test x) eqn:Htest; simpl.
    + by rewrite filter_cons_False by (by rewrite Htest).
    + by rewrite filter_cons_True, <- app_assoc by done.
Qed.

Lemma missing_commands_filter fs agent_key commands_dir :
  missing_commands fs agent_key commands_dir (_get_expected_extension agent_key) =
  filter (λ cmd, fs_exists fs (commands_dir // required_file_name agent_key cmd) = false)
         required_commands.
Proof.
  unfold missing_commands.
  rewrite (collect_failing
             (λ cmd, fs_exists fs (required_command_file agent_key commands_dir
                                     (_get_expected_extension agent_key) cmd))).
  simpl app. apply list_filter_iff. intros cmd.
  unfold required_command_file, required_file_name. by case_decide.
Qed.

Lemma required_commands_dir_precedence (paths : gmap string Path) :
  required_commands_dir paths = head (omap (λ role, paths !! role) precedence).
Proof.
  unfold required_commands_dir, precedence. simpl.
  by repeat (case_match; simpl; try simplify_eq).
Qed.

(** The check on any [paths]: nothing without a directory or when the
    directory is not there; else one warning if a name is missing. *)
Lemma _check_required_commands_spec fs agent_key agent_name
    (paths : gmap string Path) self :
  _check_required_commands fs agent_key agent_name paths self =
    match head (omap (λ role, paths !! role) precedence) with
    | None => self
    | Some d =>
        if fs_exists fs d then
          match filter (λ cmd, fs_exists fs (d // required_file_name agent_key cmd) = false)
                       required_commands with
          | [] => self
          | missing => warnings_append (missing_commands_warning agent_key missing) self
          end
        else self
    end.
Proof.
  unfold _check_required_commands.
  rewrite required_commands_dir_precedence.
  destruct (head _) as [d |]; [| done].
  destruct (fs_exists fs d); [| done]. simpl.
  by rewrite missing_commands_filter.
Qed.

(** C6: the required-command check of a detected agent.  The list of
    names is the fixed list of eight; the directory is the first there is
    among [commands], [workflows], [prompts], [agents], and it exists; the
    file of a name is [speckit-<name>.agent.md] for copilot and
    [<name>.<ext>] otherwise; when names are missing, one warning lists
    them all, joined by a comma and a space, and nothing else is
    recorded. *)
Theorem required_commands_one_warning fs agent_key agent_name root agent_dir self :
  let paths := detect_paths fs root agent_key agent_dir in
  let dirs := omap (λ role, paths !! role) precedence in
  let after := _check_required_commands fs agent_key agent_name paths self in
  required_commands = ["specify"; "plan"; "tasks"; "implement";
                       "constitution"; "clarify"; "analyze"; "checklist"] ∧
  Forall (λ d, fs_exists fs d = true) dirs ∧
  after =
    match dirs with
    | [] => self
    | d :: _ =>
        match filter (λ cmd, fs_exists fs (d // required_file_name agent_key cmd) = false)
                     required_commands with
        | [] => self
        | missing => warnings_append (missing_commands_warning agent_key missing) self
        end
    end ∧
  issues after = issues self ∧
  ∃ w, warnings after = warnings self ++ w ∧ length w ≤ 1.
Proof.
  intros paths dirs after.
  assert (Forall (λ d, fs_exists fs d = true) dirs) as Hdirs.
  { apply Forall_forall. intros d (role & Hrole & Hlook)%list_elem_of_omap.
    destruct (detect_paths_inv fs root agent_key agent_dir) as [_ Hsub].
    apply (Hsub role d Hlook). unfold precedence in Hrole. set_solver. }
  assert (after =
    match dirs with
    | [] => self
    | d :: _ =>
        match filter (λ cmd, fs_exists fs (d // required_file_name agent_key cmd) = false)
                     required_commands with
        | [] => self
        | missing => warnings_append (missing_commands_warning agent_key missing) self
        end
    end) as Hafter.
  { unfold after. rewrite _check_required_commands_spec. fold paths. fold dirs.
    destruct dirs as [| d dirs']; [done |]. simpl.
    apply Forall_cons in Hdirs as [-> _]. done. }
  split; [done |]. split; [done |]. split; [done |].
  rewrite Hafter. destruct dirs as [| d dirs']; simpl.
  - split; [done |]. exists []. split; [by rewrite app_nil_r | simpl; lia].
  - destruct (filter _ required_commands) as [| cmd missing]; simpl.
    + split; [done |]. exists []. split; [by rewrite app_nil_r | simpl; lia].
    + split; [done |]. eexists [_]. split; [done | simpl; lia].
Qed.

(** ** Determinism *)

Lemma foldl_pointwise {A B : Type} (f g : A → B → A) (l : list B) (a : A) :
  (∀ a x, f a x = g a x) → foldl f a l = foldl g a l.
Proof.
  intros Hfg. revert a. induction l as [| x l IH]; intros a; simpl.
  - done.
  - by rewrite Hfg, IH.
Qed.

(** The result of every method is a function of what the snapshot
    answers: two snapshots with the same answers give the same result. *)
Section SameAnswers.

Context (fs1 fs2 : FileSystem).
Context (Hexists : ∀ p, fs_exists fs1 p = fs_exists fs2 p).
Context (Hread : ∀ p, fs_read_text fs1 p = fs_read_text fs2 p).
Context (Hglob : ∀ p pattern, fs_glob fs1 p pattern = fs_glob fs2 p pattern).













End SameAnswers.



(** * More of the validator *)

(** ** Substrings *)

Lemma append_cons (c : ascii) (a b : string) : String c a +:+ b = String c (a +:+ b).
Proof. reflexivity. Qed.

Lemma append_assoc (a b c : string) : (a +:+ b) +:+ c = a +:+ (b +:+ c).
Proof.
  induction a as [| x a IH]; [done |]. by rewrite !append_cons, IH.
Qed.

Lemma startswith_nil (s : string) : PyStr.startswith s "" = true.
Proof. by destruct s. Qed.

Lemma startswith_append (pre r : string) : PyStr.startswith (pre +:+ r) pre = true.
Proof.
  induction pre as [| a pre IH]; [apply startswith_nil |].
  rewrite append_cons. simpl. by rewrite Ascii.eqb_refl.
Qed.

Lemma startswith_split (s pre : string) :
  PyStr.startswith s pre = true →
  s = pre +:+ PyStr.drop (String.length pre) s.
Proof.
  revert s. induction pre as [| a pre IH]; intros s Hs; [done |].
  destruct s as [| b s]; [done |]. simpl in Hs.
  destruct (Ascii.eqb_spec a b) as [-> | ?]; [| done].
  rewrite append_cons. simpl. f_equal. by apply IH.
Qed.

Lemma partition_unfold (s sep : string) :
  PyStr.partition s sep =
    if PyStr.startswith s sep
    then Some ("", PyStr.drop (String.length sep) s)
    else match s with
         | "" => None
         | String c s' =>
             match PyStr.partition s' sep with
             | Some (before, after) => Some (String c before, after)
             | None => None
             end
         end.
Proof. by destruct s. Qed.

(** [partition] cuts at an occurrence of the separator. *)
Lemma partition_Some (s sep before after : string) :
  PyStr.partition s sep = Some (before, after) →
  s = before +:+ sep +:+ after.
Proof.
  revert before. induction s as [| c s IH]; intros before;
    rewrite partition_unfold;
    destruct (PyStr.startswith _ sep) eqn:Hstart;
    try (intros [= <- <-]; exact (startswith_split _ _ Hstart)).
  destruct (PyStr.partition s sep) as [[b a] |]; [| done].
  intros [= <- <-]. rewrite append_cons. f_equal. by apply IH.
Qed.

(** [partition] finds the separator wherever it occurs. *)
Lemma partition_is_Some (before sep after : string) :
  is_Some (PyStr.partition (before +:+ sep +:+ after) sep).
Proof.
  induction before as [| c before IH]; rewrite partition_unfold.
  - change ("" +:+ sep +:+ after) with (sep +:+ after).
    rewrite startswith_append. eauto.
  - destruct (PyStr.startswith _ sep); [eauto |].
    rewrite append_cons. destruct IH as [[b a] ->]. eauto.
Qed.

(** [sub in s] holds exactly when [s] is some text, [sub], some text. *)
Lemma contains_spec (s sub : string) :
  PyStr.contains s sub = true ↔ ∃ before after, s = before +:+ sub +:+ after.
Proof.
  unfold PyStr.contains. split.
  - destruct (PyStr.partition s sub) as [[b a] |] eqn:Hp; [| done].
    intros _. exists b, a. by apply partition_Some.
  - intros (b & a & ->). by destruct (partition_is_Some b sub a) as [? ->].
Qed.

Lemma contains_suffix (s x y : string) :
  PyStr.contains s (x +:+ y) = true → PyStr.contains s y = true.
Proof.
  rewrite !contains_spec. intros (b & a & ->).
  exists (b +:+ x), a. by rewrite !append_assoc.
Qed.

(** The text before the cut holds no occurrence of the separator. *)
Lemma partition_leftmost (s sep before after : string) :
  sep ≠ "" →
  PyStr.partition s sep = Some (before, after) →
  ∀ x y, before ≠ x +:+ sep +:+ y.
Proof.
  intros Hsep. revert before.
  induction s as [| c s IH]; intros before; rewrite partition_unfold;
    destruct (PyStr.startswith _ sep) eqn:Hstart.
  - intros [= <- <-] x y Heq. destruct x; [by destruct sep | done].
  - done.
  - intros [= <- <-] x y Heq. destruct x; [by destruct sep | done].
  - destruct (PyStr.partition s sep) as [[b a] |] eqn:Hp; [| done].
    intros [= <- <-] x y Heq.
    destruct x as [| c' x].
    + apply partition_Some in Hp.
      change ("" +:+ sep +:+ y) with (sep +:+ y) in Heq.
      assert (String c s = sep +:+ (y +:+ sep +:+ a)) as Hs.
      { rewrite <- append_assoc, <- Heq, append_cons. by f_equal. }
      rewrite Hs, startswith_append in Hstart. done.
    + rewrite append_cons in Heq. injection Heq as _ Heq.
      by apply (IH b eq_refl x y).
Qed.

(** ** The markdown validator *)

(** The three segments of a content that starts with the delimiter and
    has it a second time: the frontmatter is the text between the first
    two delimiters. *)
Lemma frontmatter_closed content :
  PyStr.startswith content "---" = true →
  PyStr.contains (PyStr.drop 3 content) "---" = true →
  ∃ frontmatter body,
    PyStr.split content "---" 2 = [""; frontmatter; body] ∧
    content = "---" +:+ frontmatter +:+ "---" +:+ body ∧
    ∀ x y, frontmatter ≠ x +:+ "---" +:+ y.
Proof.
  intros Hstart Hclosed. rewrite (split_after_delimiter _ Hstart).
  unfold PyStr.contains in Hclosed.
  destruct (PyStr.partition (PyStr.drop 3 content) "---")
    as [[frontmatter body] |] eqn:Hp; [| done].
  exists frontmatter, body. split; [done |]. split.
  - rewrite (startswith_split _ _ Hstart) at 1. f_equal.
    by apply partition_Some.
  - by apply (partition_leftmost (PyStr.drop 3 content) "---" frontmatter body).
Qed.

Lemma frontmatter_unclosed content :
  PyStr.startswith content "---" = true →
  PyStr.contains (PyStr.drop 3 content) "---" = false →
  PyStr.split content "---" 2 = [""; PyStr.drop 3 content].
Proof.
  intros Hstart Hopen. rewrite (split_after_delimiter _ Hstart).
  unfold PyStr.contains in Hopen.
  by destruct (PyStr.partition (PyStr.drop 3 content) "---") as [[? ?] |].
Qed.

(** X1: for a content that starts with [---], the markdown validator
    answers with the invalid-frontmatter error, and only it, exactly when
    the delimiter does not occur a second time. *)
Theorem invalid_frontmatter_iff agent_key cmd_file content self :
  PyStr.startswith content "---" = true →
  _validate_markdown_format agent_key cmd_file content self =
    issues_append (invalid_frontmatter_error self agent_key cmd_file) self
  ↔ PyStr.contains (PyStr.drop 3 content) "---" = false.
Proof.
  intros Hstart. unfold _validate_markdown_format. rewrite Hstart. simpl negb.
  cbv iota.
  destruct (PyStr.contains (PyStr.drop 3 content) "---") eqn:Hclosed.
  - destruct (frontmatter_closed _ Hstart Hclosed) as (fm & body & -> & _).
    split; [| done]. intros Heq. exfalso.
    apply (f_equal issues) in Heq. revert Heq. cbv zeta.
    repeat case_match; simpl; intros Heq;
      try (apply (f_equal length) in Heq; rewrite length_app in Heq;
           simpl in Heq; lia);
      by apply app_inv_head in Heq.
  - rewrite (frontmatter_unclosed _ Hstart Hclosed). done.
Qed.

Lemma invalid_frontmatter_iff_witness :
  PyStr.startswith Examples.unclosed_command "---" = true ∧
  (_validate_markdown_format "claude"
     (Examples.root // ".claude/" // "commands" // "specify.md")
     Examples.unclosed_command (__init__ Examples.root Examples.registry) =
   issues_append
     (invalid_frontmatter_error (__init__ Examples.root Examples.registry) "claude"
        (Examples.root // ".claude/" // "commands" // "specify.md"))
     (__init__ Examples.root Examples.registry)
   ↔ PyStr.contains (PyStr.drop 3 Examples.unclosed_command) "---" = false).
Proof.
  split; [reflexivity |].
  apply (invalid_frontmatter_iff "claude" _ Examples.unclosed_command).
  reflexivity.
Defined.

(** X2: the markdown validator records at most one error and at most two
    warnings for a file, and a warning only for a file whose frontmatter
    is closed: the content is [---], a frontmatter free of [---], [---]
    and a body. *)
Theorem markdown_findings_bounded agent_key cmd_file content self :
  ∃ i w,
    issues (_validate_markdown_format agent_key cmd_file content self) =
      issues self ++ i ∧
    warnings (_validate_markdown_format agent_key cmd_file content self) =
      warnings self ++ w ∧
    length i ≤ 1 ∧ length w ≤ 2 ∧
    (w ≠ [] → ∃ frontmatter body,
       content = "---" +:+ frontmatter +:+ "---" +:+ body ∧
       ∀ x y, frontmatter ≠ x +:+ "---" +:+ y).
Proof.
  unfold _validate_markdown_format.
  destruct (PyStr.startswith content "---") eqn:Hstart; simpl negb; cbv iota.
  2: { eexists [_], []. simpl. rewrite app_nil_r.
    repeat split; try done; simpl; lia. }
  destruct (PyStr.contains (PyStr.drop 3 content) "---") eqn:Hclosed.
  - destruct (frontmatter_closed _ Hstart Hclosed) as (fm & body & -> & Hc & Hfm).
    cbv zeta.
    destruct (negb (Re.search_multiline _ fm)),
      (negb (PyStr.contains body "{SCRIPT}") && _),
      (negb (PyStr.contains body "$ARGUMENTS") && _ && _); simpl;
      match goal with
      | |- ∃ i w, ?a ++ ?i0 = _ ∧ (?b ++ ?w0) ++ ?w1 = _ ∧ _ =>
          exists i0, (w0 ++ w1); rewrite <- app_assoc
      | |- ∃ i w, ?a ++ ?i0 = _ ∧ ?b ++ ?w0 = _ ∧ _ => exists i0, w0
      | |- ∃ i w, ?a = _ ∧ (?b ++ ?w0) ++ ?w1 = _ ∧ _ =>
          exists [], (w0 ++ w1); rewrite <- app_assoc, app_nil_r
      | |- ∃ i w, ?a ++ ?i0 = _ ∧ ?b = _ ∧ _ =>
          exists i0, []; rewrite app_nil_r
      | |- ∃ i w, ?a = _ ∧ ?b ++ ?w0 = _ ∧ _ =>
          exists [], w0; rewrite app_nil_r
      | |- ∃ i w, ?a = _ ∧ ?b = _ ∧ _ => exists [], []; rewrite !app_nil_r
      end;
      (split; [done |]); (split; [done |]);
      (split; [simpl; lia |]); (split; [simpl; lia |]); eauto.
  - rewrite (frontmatter_unclosed _ Hstart Hclosed).
    eexists [_], []. simpl. rewrite app_nil_r.
    repeat split; try done; simpl; lia.
Qed.

(** ** The copilot and TOML validators *)

(** X3: the copilot validator and the markdown validator record the same
    errors for every content; they differ in their warnings only (the
    [mode:] line is never an error). *)
Theorem copilot_errors_as_markdown agent_key cmd_file content self :
  issues (_validate_copilot_format agent_key cmd_file content self) =
  issues (_validate_markdown_format agent_key cmd_file content self).
Proof.
  unfold _validate_copilot_format, _validate_markdown_format.
  destruct (negb (PyStr.startswith content "---")); [done |].
  destruct (PyStr.split content "---" 2) as [| p0 [| frontmatter [| body parts]]];
    try done.
  cbv zeta. by repeat case_match.
Qed.

(** X4: a TOML command file gets no finding exactly when it has a
    [description =] line and a [prompt =] line and does not use
    [$ARGUMENTS] without [{{args}}]; a frontmatter is never asked of it. *)
Theorem toml_clean_iff agent_key cmd_file content self :
  _validate_toml_format agent_key cmd_file content self = self ↔
  Re.search_multiline [Re.WsStar; Re.Lit "description"; Re.WsStar; Re.Lit "="]
    content = true ∧
  Re.search_multiline [Re.WsStar; Re.Lit "prompt"; Re.WsStar; Re.Lit "="]
    content = true ∧
  (PyStr.contains content "$ARGUMENTS" = true →
   PyStr.contains content "{{args}}" = true).
Proof.
  unfold _validate_toml_format.
  destruct (Re.search_multiline [_; Re.Lit "description"; _; _] content);
    destruct (Re.search_multiline [_; Re.Lit "prompt"; _; _] content);
    destruct (PyStr.contains content "{{args}}");
    destruct (PyStr.contains content "$ARGUMENTS");
    simpl; split.
  all: try (intros (Hd & Hp & Himp);
            first [done | discriminate | by specialize (Himp eq_refl)]).
  all: intros Heq; try (by repeat split); exfalso.
  all: apply (f_equal (λ s, length (issues s) + length (warnings s))) in Heq.
  all: simpl in Heq; rewrite ?length_app in Heq; simpl in Heq; lia.
Qed.

(** ** The context file *)

(** The test for the technologies section looks for [Technologies] only:
    a content with [Active Technologies] has [Technologies]. *)
Lemma technologies_test content :
  negb (PyStr.contains content "Active Technologies")
    && negb (PyStr.contains content "Technologies") =
  negb (PyStr.contains content "Technologies").
Proof.
  destruct (PyStr.contains content "Active Technologies") eqn:Hactive; [| done].
  by rewrite (contains_suffix content "Active " "Technologies" Hactive).
Qed.

(** The warnings of a context file that can be read, one test after the
    other. *)
Lemma _check_context_file_readable fs agent_key agent_name context_file content self :
  fs_read_text fs context_file = inl content →
  let relative_path := relative_to context_file (project_root self) in
  let warn := context_warning agent_key relative_path in
  let after := _check_context_file fs agent_key agent_name context_file self in
  issues after = issues self ∧
  warnings after = warnings self ++
    (if PyStr.contains content "<!-- MANUAL ADDITIONS START -->"
        && negb (PyStr.contains content "<!-- MANUAL ADDITIONS END -->")
     then [warn "Found MANUAL ADDITIONS START marker but missing END marker"]
     else []) ++
    (if PyStr.contains content "[PROJECT NAME]"
     then [warn "Context file contains unreplaced [PROJECT NAME] placeholder"]
     else []) ++
    (if PyStr.contains content "[DATE]"
     then [warn "Context file contains unreplaced [DATE] placeholder"]
     else []) ++
    (if negb (PyStr.contains content "Technologies")
     then [warn "Context file may be missing 'Active Technologies' section"]
     else []).
Proof.
  intros Hread relative_path warn after. unfold after, _check_context_file.
  rewrite Hread, technologies_test. cbv zeta.
  destruct (PyStr.contains content "<!-- MANUAL ADDITIONS START -->"),
    (PyStr.contains content "<!-- MANUAL ADDITIONS END -->"),
    (PyStr.contains content "[PROJECT NAME]"),
    (PyStr.contains content "[DATE]"),
    (PyStr.contains content "Technologies"); simpl;
    by rewrite <- ?app_assoc, ?app_nil_r.
Qed.

(** X5: the context-file check records an error exactly when the file
    cannot be read, and then nothing else; a file that can be read gets at
    most four warnings, all of category [context] and naming that file. *)
Theorem context_file_error_iff_unreadable fs agent_key agent_name context_file self :
  let relative_path := relative_to context_file (project_root self) in
  let after := _check_context_file fs agent_key agent_name context_file self in
  match fs_read_text fs context_file with
  | inr e =>
      issues after = issues self ++
        [file_error agent_key "context" relative_path
           ("Failed to read context file: " +:+ e)] ∧
      warnings after = warnings self
  | inl content =>
      issues after = issues self ∧
      ∃ w, warnings after = warnings self ++ w ∧ length w ≤ 4 ∧
           Forall (λ f, agent f = agent_key ∧ category f = "context" ∧
                        severity f = None ∧
                        file f = Some (path_str relative_path)) w
  end.
Proof.
  intros relative_path after.
  destruct (fs_read_text fs context_file) as [content | e] eqn:Hread.
  - destruct (_check_context_file_readable fs agent_key agent_name context_file
                content self Hread) as [Hi Hw].
    split; [exact Hi |]. eexists. split; [exact Hw |].
    repeat case_match; simpl; split; try lia; by repeat constructor.
  - unfold after, _check_context_file. by rewrite Hread.
Qed.

(** X6: for a context file that can be read, the warning that the
    technologies section may be missing is recorded exactly when the
    content does not contain [Technologies]; the test on
    [Active Technologies] changes nothing. *)
Theorem technologies_warning_iff fs agent_key agent_name context_file content self :
  fs_read_text fs context_file = inl content →
  ∃ w, warnings (_check_context_file fs agent_key agent_name context_file self) =
         warnings self ++ w ∧
       (context_warning agent_key (relative_to context_file (project_root self))
          "Context file may be missing 'Active Technologies' section" ∈ w
        ↔ PyStr.contains content "Technologies" = false).
Proof.
  intros Hread.
  destruct (_check_context_file_readable fs agent_key agent_name context_file
              content self Hread) as [_ Hw].
  eexists. split; [exact Hw |].
  destruct (PyStr.contains content "Technologies"); simpl.
  - split; [| done]. rewrite app_nil_r. intros Hin. exfalso.
    repeat case_match; set_solver.
  - split; [done |]. intros _. rewrite !elem_of_app. do 3 right.
    set_solver.
Qed.

Lemma technologies_warning_iff_witness :
  fs_read_text MoreExamples.context_project (Examples.root // "CLAUDE.md") =
    inl MoreExamples.guidelines ∧
  ∃ w, warnings (_check_context_file MoreExamples.context_project "claude"
                   "Claude Code" (Examples.root // "CLAUDE.md")
                   (__init__ Examples.root Examples.registry)) =
         warnings (__init__ Examples.root Examples.registry) ++ w ∧
       (context_warning "claude"
          (relative_to (Examples.root // "CLAUDE.md")
             (project_root (__init__ Examples.root Examples.registry)))
          "Context file may be missing 'Active Technologies' section" ∈ w
        ↔ PyStr.contains MoreExamples.guidelines "Technologies" = false).
Proof.
  assert (fs_read_text MoreExamples.context_project (Examples.root // "CLAUDE.md") =
            inl MoreExamples.guidelines) as Hread by (vm_compute; reflexivity).
  split; [exact Hread |].
  exact (technologies_warning_iff MoreExamples.context_project "claude"
           "Claude Code" (Examples.root // "CLAUDE.md") MoreExamples.guidelines
           (__init__ Examples.root Examples.registry) Hread).
Defined.

(** ** The command files of a directory *)

Section CommandFiles.

Context (fs : FileSystem) (agent_key agent_name : string).

(** The finding is about the file [cmd_file]. *)
Local Abbreviation about root files := (λ f : Finding,
  agent f = agent_key ∧
  ∃ cmd_file, cmd_file ∈ files ∧ file f = Some (path_str (relative_to cmd_file root))).

Lemma _validate_command_file_about (files : list Path) cmd_file file_type self :
  cmd_file ∈ files →
  extends (about (project_root self) files) (about (project_root self) files) self
    (_validate_command_file fs agent_key agent_name cmd_file file_type self).
Proof.
  intros Hin.
  assert (∀ cat msg,
    about (project_root self) files
      (file_error agent_key cat (relative_to cmd_file (project_root self)) msg))
    as Herr by (intros; split; [done | by exists cmd_file]).
  assert (∀ cat msg,
    about (project_root self) files
      (file_warning agent_key cat (relative_to cmd_file (project_root self)) msg))
    as Hwarn by (intros; split; [done | by exists cmd_file]).
  unfold _validate_command_file, _validate_toml_format, _validate_copilot_format,
    _validate_markdown_format.
  repeat case_match;
    repeat first
      [ apply extends_refl
      | apply extends_issue; [apply Herr |]
      | apply extends_warning; [apply Hwarn |] ].
Qed.

Lemma command_files_loop_about (files todo : list Path) file_type self :
  todo ⊆ files →
  extends (about (project_root self) files) (about (project_root self) files) self
    (foldl (λ self cmd_file,
              _validate_command_file fs agent_key agent_name cmd_file file_type self)
           self todo).
Proof.
  revert self. induction todo as [| cmd_file todo IH]; intros self Hsub; simpl.
  - apply extends_refl.
  - pose proof (_validate_command_file_about files cmd_file file_type self) as Hstep.
    eapply extends_trans; [apply Hstep; set_solver |].
    pose proof (IH (_validate_command_file fs agent_key agent_name cmd_file
                      file_type self)) as Hrest.
    destruct Hstep as (Hroot & _); [set_solver |].
    rewrite Hroot in Hrest. apply Hrest. set_solver.
Qed.

(** X7: every error that the check of a command directory records is
    about a file that [glob] returned for the agent's extension, and names
    it in its [file] key; a directory that does not exist gets no finding,
    and a directory without such a file gets one warning and no error. *)
Theorem command_file_errors_name_files commands_dir file_type self :
  let after := _check_command_files fs agent_key agent_name commands_dir
                 file_type self in
  let files := fs_glob fs commands_dir ("*." +:+ _get_expected_extension agent_key) in
  (fs_exists fs commands_dir = false → after = self) ∧
  (fs_exists fs commands_dir = true → files = [] →
   issues after = issues self ∧ ∃ f, warnings after = warnings self ++ [f]) ∧
  ∃ i, issues after = issues self ++ i ∧
       Forall (λ f, agent f = agent_key ∧
                    ∃ cmd_file, cmd_file ∈ files ∧
                      file f = Some (path_str (relative_to cmd_file (project_root self))))
              i.
Proof.
  intros after files. unfold after, _check_command_files. fold files.
  destruct (fs_exists fs commands_dir); simpl.
  2: { split; [done |]. split; [done |]. exists []. by rewrite app_nil_r. }
  split; [done |]. split.
  - intros _ ->. split; [done |]. by eexists.
  - destruct files as [| cmd_file rest] eqn:Hfiles.
    + exists []. by rewrite app_nil_r.
    + rewrite <- Hfiles.
      destruct (command_files_loop_about files files file_type self)
        as (_ & _ & (i & Hi & Hall) & _); [done |].
      exists i. split; [| done].
      rewrite <- Hi. by rewrite Hfiles.
Qed.

End CommandFiles.

(** ** The detected agents *)

Lemma dict_set_NoDup {V : Type} (k : string) (v : V) (d : list (string * V)) :
  NoDup d.*1 → NoDup (dict_set k v d).*1.
Proof.
  induction d as [| [k0 v0] d IH]; simpl; intros Hnd.
  - apply NoDup_singleton.
  - apply NoDup_cons in Hnd as [Hk0 Hnd]. case_decide; subst; simpl.
    + by apply NoDup_cons.
    + apply NoDup_cons. split; [| by apply IH].
      rewrite dict_set_keys. naive_solver.
Qed.

Lemma dict_set_fresh {V : Type} (k : string) (v : V) (d : list (string * V)) :
  k ∉ d.*1 → dict_set k v d = d ++ [(k, v)].
Proof.
  induction d as [| [k0 v0] d IH]; simpl; intros Hk; [done |].
  rewrite decide_False by set_solver. f_equal. apply IH. set_solver.
Qed.


Lemma detect_fold_order fs root items detected :
  NoDup (detected.*1 ++ items.*1) →
  ∃ l, l `sublist_of` items.*1 ∧
       (foldl (detect_step fs root) detected items).*1 = detected.*1 ++ l.
Proof.
  revert detected. induction items as [| [k cfg] items IH]; intros detected Hnd.
  - exists []. by rewrite app_nil_r.
  - simpl in *.
    assert (k ∉ detected.*1) as Hfresh.
    { apply NoDup_app in Hnd as (_ & Hdisj & _). intros Hk.
      apply (Hdisj k Hk). set_solver. }
    assert (NoDup (detected.*1 ++ items.*1)) as Hnd'.
    { apply NoDup_app in Hnd as (H1 & H2 & H3). apply NoDup_cons in H3 as [? ?].
      apply NoDup_app. repeat split; [done | | done].
      intros x Hx Hx'. apply (H2 x Hx). set_solver. }
    assert (NoDup ((detected ++ [(k, detect_paths fs root k
              (root // default "" (folder cfg)))]).*1 ++ items.*1)) as Hnd''.
    { rewrite fmap_app, <- app_assoc. simpl. done. }
    destruct (folder cfg) as [f |] eqn:Hfolder; simpl in *.
    2: { destruct (IH detected Hnd') as (l & Hl & ->).
         exists l. split; [by apply sublist_cons | done]. }
    destruct (fs_exists fs (root // f)).
    2: { destruct (IH detected Hnd') as (l & Hl & ->).
         exists l. split; [by apply sublist_cons | done]. }
    case_bool_decide.
    2: { destruct (IH detected Hnd') as (l & Hl & ->).
         exists l. split; [by apply sublist_cons | done]. }
    rewrite dict_set_fresh by done.
    destruct (IH _ Hnd'') as (l & Hl & ->).
    exists (k :: l). split; [by apply sublist_skip |].
    by rewrite fmap_app, <- app_assoc.
Qed.

(** X9: for a registry with distinct keys (a dictionary), the detected
    agents come in the order of the registry: their keys are a
    subsequence of its keys. *)
Theorem detected_in_registry_order fs root reg :
  NoDup reg.*1 →
  (_detect_agents fs (__init__ root reg)).*1 `sublist_of` reg.*1.
Proof.
  intros Hnd. destruct (detect_fold_order fs root reg [] Hnd) as (l & Hl & Heq).
  unfold _detect_agents. simpl. by rewrite Heq.
Qed.

Lemma detected_in_registry_order_witness :
  NoDup Examples.registry.*1 ∧
  (_detect_agents Examples.opencode_project
     (__init__ Examples.root Examples.registry)).*1
    `sublist_of` Examples.registry.*1.
Proof.
  assert (NoDup Examples.registry.*1) as Hnd.
  { refine (bool_decide_unpack _ _). vm_compute. exact I. }
  split; [exact Hnd |].
  exact (detected_in_registry_order Examples.opencode_project Examples.root
           Examples.registry Hnd).
Defined.

(** ** The findings of a pass *)

Lemma validate_each_segments fs detected self :
  (∀ k paths, (k, paths) ∈ detected →
              k ∈ (agent_config self).*1 ∧ is_Some (paths !! "dir")) →
  ∃ self' isegs wsegs,
    validate_each fs detected self = Some self' ∧
    issues self' = issues self ++ concat isegs ∧
    warnings self' = warnings self ++ concat wsegs ∧
    segmented detected.*1 isegs ∧ segmented detected.*1 wsegs.
Proof.
  revert self. induction detected as [| [k paths] rest IH]; intros self Hall.
  - exists self, [], []. simpl. rewrite !app_nil_r. repeat split; constructor.
  - destruct (Hall k paths) as [Hk Hdir]; [set_solver |].
    apply dict_get_is_Some in Hk.
    destruct (_validate_agent_extends fs k paths self Hk Hdir)
      as (s1 & Hs1 & _ & Hcfg & (i & Hi & HP) & (w & Hw & HQ)).
    destruct (IH s1) as (s2 & isegs & wsegs & Hs2 & Hi2 & Hw2 & Hsi & Hsw).
    { intros k' paths' Hin. rewrite Hcfg. apply Hall. set_solver. }
    exists s2, (i :: isegs), (w :: wsegs). simpl. rewrite Hs1. simpl.
    split; [done |]. rewrite Hi2, Hi, Hw2, Hw, <- !app_assoc.
    repeat split; try done; constructor; try done.
    + eapply Forall_impl; [exact HP |]. intros f (Hin & _). set_solver.
    + eapply Forall_impl; [exact HQ |]. intros f (Hin & _). set_solver.
Qed.

(** X10: the issues of a pass are the issues of the first detected agent,
    then those of the second, and so on, and so are the warnings: the
    findings come agent by agent, in the order of detection. *)
Theorem findings_agent_by_agent fs root reg :
  ∃ out, validate_agent_standards fs root reg = Some out ∧
    match _detect_agents fs (__init__ root reg) with
    | [] => out_issues out = [] ∧ out_warnings out = [no_agent_warning]
    | detected =>
        ∃ isegs wsegs,
          out_issues out = concat isegs ∧ out_warnings out = concat wsegs ∧
          segmented detected.*1 isegs ∧ segmented detected.*1 wsegs
    end.
Proof.
  unfold validate_agent_standards, validate_all.
  destruct (_detect_agents fs (__init__ root reg)) as [| entry detected] eqn:Hdet.
  - eexists. split; [reflexivity |]. done.
  - destruct (validate_each_segments fs (entry :: detected) (__init__ root reg))
      as (s & isegs & wsegs & Hs & Hi & Hw & Hsi & Hsw).
    { intros k paths Hin. rewrite <- Hdet in Hin.
      by apply _detect_agents_entries in Hin. }
    rewrite Hs. simpl. eexists. split; [reflexivity |].
    exists isegs, wsegs. simpl. by rewrite Hi, Hw.
Qed.

(** *** The shape of an error *)

Section Shape.

Context (fs : FileSystem) (agent_key agent_name : string).

Local Abbreviation shaped :=
  (extends (issue_shape agent_key) (λ _, True)).

Ltac shape_cases :=
  repeat case_match;
  repeat first
    [ apply extends_refl
    | apply extends_warning; [exact I |]
    | apply extends_issue;
        [ split; [reflexivity |]; right;
          split; [simpl; set_solver | by eexists] |] ].

Lemma _validate_command_file_shaped cmd_file file_type self :
  shaped self (_validate_command_file fs agent_key agent_name cmd_file file_type self).
Proof.
  unfold _validate_command_file, _validate_toml_format, _validate_copilot_format,
    _validate_markdown_format.
  shape_cases.
Qed.

Lemma _check_command_files_shaped commands_dir file_type self :
  shaped self (_check_command_files fs agent_key agent_name commands_dir file_type self).
Proof.
  unfold _check_command_files.
  destruct (negb (fs_exists fs commands_dir)); [apply extends_refl |].
  destruct (fs_glob fs commands_dir _) as [| cmd_file files].
  - shape_cases.
  - apply extends_foldl. intros. apply _validate_command_file_shaped.
Qed.

Lemma _check_context_file_shaped context_file self :
  shaped self (_check_context_file fs agent_key agent_name context_file self).
Proof. unfold _check_context_file, context_warning. shape_cases. Qed.

Lemma _check_required_commands_shaped paths self :
  shaped self (_check_required_commands fs agent_key agent_name paths self).
Proof. unfold _check_required_commands. shape_cases. Qed.

Lemma _check_directory_structure_shaped paths self :
  is_Some (dict_get agent_key (agent_config self)) →
  is_Some (paths !! "dir") →
  ∃ self', _check_directory_structure fs agent_key agent_name paths self = Some self'
           ∧ shaped self self'.
Proof.
  intros [config Hconfig] [agent_dir Hdir].
  unfold _check_directory_structure. rewrite Hconfig, Hdir. simpl.
  repeat case_match; eexists; (split; [reflexivity |]);
    repeat first
      [ apply extends_refl
      | apply extends_warning; [exact I |]
      | apply extends_issue; [split; [reflexivity |]; by left |] ].
Qed.

End Shape.

Lemma _validate_agent_shaped fs agent_key paths self :
  is_Some (dict_get agent_key (agent_config self)) →
  is_Some (paths !! "dir") →
  ∃ self', _validate_agent fs agent_key paths self = Some self'
           ∧ extends (issue_shape agent_key) (λ _, True) self self'.
Proof.
  intros [config Hconfig] Hdir.
  destruct (_check_directory_structure_shaped fs agent_key (name config)
              paths self (ltac:(by rewrite Hconfig)) Hdir) as (s1 & Hs1 & He1).
  unfold _validate_agent. rewrite Hconfig. cbn [mbind option_bind].
  rewrite Hs1. cbn [mbind option_bind].
  eexists. split; [reflexivity |].
  eapply extends_trans; [| apply _check_required_commands_shaped].
  destruct (paths !! "context_file");
    [eapply extends_trans; [| apply _check_context_file_shaped] |];
    (destruct (paths !! "commands");
       [| destruct (paths !! "workflows"); [| destruct (paths !! "prompts")]]);
    first [ exact He1
          | eapply extends_trans; [exact He1 | apply _check_command_files_shaped] ].
Qed.

Lemma validate_each_shaped fs detected self :
  (∀ k paths, (k, paths) ∈ detected →
              k ∈ (agent_config self).*1 ∧ is_Some (paths !! "dir")) →
  ∃ self', validate_each fs detected self = Some self' ∧
           extends (λ f, issue_shape (agent f) f) (λ _, True) self self'.
Proof.
  revert self. induction detected as [| [k paths] rest IH]; intros self Hall.
  - exists self. split; [done | apply extends_refl].
  - destruct (Hall k paths) as [Hk Hdir]; [set_solver |].
    apply dict_get_is_Some in Hk.
    destruct (_validate_agent_shaped fs k paths self Hk Hdir) as (s1 & Hs1 & He1).
    destruct (IH s1) as (s2 & Hs2 & He2).
    { intros k' paths' Hin. destruct He1 as (_ & -> & _). apply Hall. set_solver. }
    exists s2. simpl. rewrite Hs1. simpl. split; [done |].
    eapply extends_trans; [| exact He2].
    eapply extends_weaken; [| | exact He1]; [| done].
    intros f Hf. destruct Hf as [Hagent Hf]. by rewrite Hagent.
Qed.

(** X11: every error of a pass names the file it is about in its [file]
    key, but for one: the structural error, which only copilot can get
    (its [agents] directory is missing) and which names no file. *)
Theorem errors_name_a_file fs root reg :
  ∃ out, validate_agent_standards fs root reg = Some out ∧
    Forall (λ f, (category f = "structure" ∧ agent f = "copilot" ∧ file f = None) ∨
                 (category f ∈ ["commands"; "format"; "context"] ∧ is_Some (file f)))
           (out_issues out).
Proof.
  unfold validate_agent_standards, validate_all.
  destruct (_detect_agents fs (__init__ root reg)) as [| entry detected] eqn:Hdet.
  - eexists. split; [reflexivity |]. constructor.
  - destruct (validate_each_shaped fs (entry :: detected) (__init__ root reg))
      as (s & Hs & _ & _ & (i & Hi & HP) & _).
    { intros k paths Hin. rewrite <- Hdet in Hin.
      by apply _detect_agents_entries in Hin. }
    rewrite Hs. simpl. eexists. split; [reflexivity |]. simpl.
    rewrite Hi. simpl. eapply Forall_impl; [exact HP |].
    intros f [_ Hf]. exact Hf.
Qed.

(** *** A copilot project without its agents directory *)

Lemma extends_issues_kept P Q self self' f :
  extends P Q self self' → f ∈ issues self → f ∈ issues self'.
Proof. intros (_ & _ & (i & -> & _) & _) Hin. set_solver. Qed.

Lemma _validate_agent_copilot fs paths agent_dir self :
  is_Some (dict_get "copilot" (agent_config self)) →
  paths !! "dir" = Some agent_dir →
  fs_exists fs (agent_dir // "agents") = false →
  ∃ self', _validate_agent fs "copilot" paths self = Some self' ∧
           project_root self' = project_root self ∧
           agent_config self' = agent_config self ∧
           structure_error "copilot"
             (expected_dir_message self "agents" (agent_dir // "agents"))
             ∈ issues self'.
Proof.
  intros Hconfig Hdir Hagents.
  destruct (_validate_agent_extends fs "copilot" paths self Hconfig
              (ltac:(by rewrite Hdir))) as (s' & Hs' & Hroot & Hcfg & _).
  exists s'. repeat (split; [done |]).
  destruct Hconfig as [config Hconfig].
  unfold _validate_agent in Hs'. rewrite Hconfig in Hs'.
  cbn [mbind option_bind] in Hs'.
  assert (∃ s1, _check_directory_structure fs "copilot" (name config) paths self
                  = Some s1 ∧
                structure_error "copilot"
                  (expected_dir_message self "agents" (agent_dir // "agents"))
                  ∈ issues s1) as (s1 & Hs1 & Hin).
  { unfold _check_directory_structure. rewrite Hconfig, Hdir. simpl.
    rewrite Hagents. simpl. eexists. split; [reflexivity |].
    destruct (fs_exists fs (agent_dir // "prompts")); simpl; set_solver. }
  rewrite Hs1 in Hs'. cbn [mbind option_bind] in Hs'.
  injection Hs' as <-.
  eapply extends_issues_kept; [apply _check_required_commands_extends |].
  destruct (paths !! "context_file");
    [eapply extends_issues_kept; [apply _check_context_file_extends |] |];
    (destruct (paths !! "commands");
       [| destruct (paths !! "workflows"); [| destruct (paths !! "prompts")]]);
    first [ exact Hin
          | eapply extends_issues_kept; [apply _check_command_files_extends | exact Hin] ].
Qed.

Lemma validate_each_copilot fs detected paths agent_dir self :
  (∀ k paths, (k, paths) ∈ detected →
              k ∈ (agent_config self).*1 ∧ is_Some (paths !! "dir")) →
  ("copilot", paths) ∈ detected →
  paths !! "dir" = Some agent_dir →
  fs_exists fs (agent_dir // "agents") = false →
  ∃ self', validate_each fs detected self = Some self' ∧
           structure_error "copilot"
             (expected_dir_message self "agents" (agent_dir // "agents"))
             ∈ issues self'.
Proof.
  intros Hall Hin Hdir Hagents. revert self Hall.
  induction detected as [| [k paths'] rest IH]; intros self Hall;
    [by apply elem_of_nil in Hin |].
  destruct (Hall k paths') as [Hk Hdir']; [set_solver |].
  apply dict_get_is_Some in Hk.
  apply elem_of_cons in Hin as [[= <- <-] | Hin].
  - destruct (_validate_agent_copilot fs paths agent_dir self Hk Hdir Hagents)
      as (s1 & Hs1 & Hroot & Hcfg & Hf).
    destruct (validate_each_extends fs rest s1) as (s2 & Hs2 & He2).
    { intros k' p' Hin'. rewrite Hcfg. apply Hall. set_solver. }
    exists s2. simpl. rewrite Hs1. simpl. split; [done |].
    by eapply extends_issues_kept.
  - destruct (_validate_agent_extends fs k paths' self Hk Hdir')
      as (s1 & Hs1 & Hroot & Hcfg & _).
    destruct (IH Hin s1) as (s2 & Hs2 & Hf).
    { intros k' p' Hin'. rewrite Hcfg. apply Hall. set_solver. }
    exists s2. simpl. rewrite Hs1. simpl. split; [done |].
    unfold expected_dir_message in *. by rewrite <- Hroot.
Qed.

(** X12: when copilot is detected and its [agents] directory is missing
    (it was detected by its [prompts] directory), the pass fails: the
    error that the agents directory was not found is among the issues and
    [success] is false. *)
Theorem copilot_without_agents_fails fs root reg paths agent_dir :
  ("copilot", paths) ∈ _detect_agents fs (__init__ root reg) →
  paths !! "dir" = Some agent_dir →
  fs_exists fs (agent_dir // "agents") = false →
  ∃ out, validate_agent_standards fs root reg = Some out ∧
         success out = false ∧
         structure_error "copilot"
           ("Expected agents directory not found: "
              +:+ path_str (relative_to (agent_dir // "agents") root))
           ∈ out_issues out.
Proof.
  intros Hin Hdir Hagents. unfold validate_agent_standards, validate_all.
  destruct (_detect_agents fs (__init__ root reg)) as [| entry detected] eqn:Hdet;
    [by apply elem_of_nil in Hin |].
  destruct (validate_each_copilot fs (entry :: detected) paths agent_dir
              (__init__ root reg)) as (s & Hs & Hf); try done.
  { intros k p Hin'. rewrite <- Hdet in Hin'.
    by apply _detect_agents_entries in Hin'. }
  rewrite Hs. simpl. eexists. split; [reflexivity |]. simpl.
  split; [| exact Hf].
  destruct (issues s); [by apply elem_of_nil in Hf | done].
Qed.

Lemma copilot_without_agents_fails_witness :
  let fs := MoreExamples.prompts_only in
  let agent_dir := Examples.root // ".github/" in
  let paths := detect_paths fs Examples.root "copilot" agent_dir in
  ("copilot", paths) ∈ _detect_agents fs (__init__ Examples.root Examples.registry) ∧
  paths !! "dir" = Some agent_dir ∧
  fs_exists fs (agent_dir // "agents") = false ∧
  ∃ out, validate_agent_standards fs Examples.root Examples.registry = Some out ∧
         success out = false ∧
         structure_error "copilot"
           ("Expected agents directory not found: "
              +:+ path_str (relative_to (agent_dir // "agents") Examples.root))
           ∈ out_issues out.
Proof.
  intros fs agent_dir paths.
  assert (("copilot", paths) ∈
            _detect_agents fs (__init__ Examples.root Examples.registry)) as Hin.
  { vm_compute. apply list_elem_of_here. }
  assert (paths !! "dir" = Some agent_dir) as Hdir by (vm_compute; reflexivity).
  assert (fs_exists fs (agent_dir // "agents") = false) as Hagents
    by (vm_compute; reflexivity).
  repeat (split; [assumption |]).
  exact (copilot_without_agents_fails fs Examples.root Examples.registry paths
           agent_dir Hin Hdir Hagents).
Defined.

(** ** The summary and the groups of the command *)

Lemma dict_get_set {V : Type} (k : string) (v : V) (d : list (string * V)) :
  dict_get k (dict_set k v d) = Some v.
Proof.
  induction d as [| [k0 v0] d IH]; simpl.
  - by rewrite decide_True.
  - case_decide; simpl; [by rewrite decide_True | by rewrite decide_False].
Qed.

Lemma dict_get_set_ne {V : Type} (k k' : string) (v : V) (d : list (string * V)) :
  k' ≠ k → dict_get k' (dict_set k v d) = dict_get k' d.
Proof.
  intros Hne. induction d as [| [k0 v0] d IH]; simpl.
  - by rewrite decide_False.
  - case_decide; subst; simpl; [by rewrite !decide_False |].
    case_decide; [done | exact IH].
Qed.

Lemma dict_set_count_sum (k : string) (d : list (string * nat)) :
  sum_list (dict_set k (default 0 (dict_get k d) + 1) d).*2 = sum_list d.*2 + 1.
Proof.
  induction d as [| [k0 n0] d IH]; [done |].
  simpl. destruct (decide (k = k0)) as [-> | Hne]; simpl; [lia |].
  change (list_fmap (string * nat)%type nat snd) with (fmap (M:=list) (@snd string nat)).
  rewrite IH. lia.
Qed.

Lemma _group_by_agent_fold (a : string) (items : list Finding)
    (grouped : list (string * nat)) :
  let step := λ (grouped : list (string * nat)) (item : Finding),
    dict_set (agent item) (default 0 (dict_get (agent item) grouped) + 1) grouped in
  let n := length (filter (λ f, agent f = a) items) in
  dict_get a (foldl step grouped items) =
    (if decide (n = 0) then dict_get a grouped
     else Some (default 0 (dict_get a grouped) + n)) ∧
  sum_list (foldl step grouped items).*2 = sum_list grouped.*2 + length items ∧
  (NoDup grouped.*1 → NoDup (foldl step grouped items).*1).
Proof.
  intros step. revert grouped.
  induction items as [| item items IH]; intros grouped; simpl.
  - split; [done |]. split; [lia | done].
  - destruct (IH (step grouped item)) as (Hget & Hsum & Hnd).
    split; [| split].
    + rewrite Hget. unfold step.
      destruct (decide (agent item = a)) as [<- | Hne].
      * rewrite filter_cons_True by done. rewrite dict_get_set. simpl.
        repeat case_decide; try lia; f_equal; lia.
      * rewrite filter_cons_False by done.
        by rewrite dict_get_set_ne by done.
    + rewrite Hsum. unfold step. rewrite dict_set_count_sum. lia.
    + intros Hg. apply Hnd. unfold step. by apply dict_set_NoDup.
Qed.

(** X13: in the summary of a validator, an agent has an entry exactly when
    it has findings, the entry is the number of its findings, no agent has
    two entries, and the entries add up to the totals: grouping loses and
    invents nothing. *)
Theorem summary_counts self a :
  let summary := get_summary self in
  let count := λ items : list Finding, length (filter (λ f, agent f = a) items) in
  dict_get a (errors_by_agent summary) =
    (if decide (count (issues self) = 0) then None else Some (count (issues self))) ∧
  dict_get a (warnings_by_agent summary) =
    (if decide (count (warnings self) = 0) then None
     else Some (count (warnings self))) ∧
  sum_list (errors_by_agent summary).*2 = total_issues summary ∧
  sum_list (warnings_by_agent summary).*2 = total_warnings summary ∧
  NoDup (errors_by_agent summary).*1 ∧ NoDup (warnings_by_agent summary).*1.
Proof.
  intros summary count. unfold summary, get_summary, _group_by_agent. simpl.
  destruct (_group_by_agent_fold a (issues self) []) as (Hgi & Hsi & Hni).
  destruct (_group_by_agent_fold a (warnings self) []) as (Hgw & Hsw & Hnw).
  simpl in *. unfold count.
  repeat split; [by rewrite Hgi | by rewrite Hgw | done | done | |].
  - apply Hni. constructor.
  - apply Hnw. constructor.
Qed.

Lemma group_step_once (a : string) (item : Finding)
    (by_agent : list (string * list Finding)) :
  dict_set a (default [] (dict_get a
                match dict_get a by_agent with
                | None => dict_set a [] by_agent
                | Some _ => by_agent
                end) ++ [item])
    match dict_get a by_agent with
    | None => dict_set a [] by_agent
    | Some _ => by_agent
    end =
  dict_set a (default [] (dict_get a by_agent) ++ [item]) by_agent.
Proof.
  destruct (dict_get a by_agent) as [l |] eqn:Hget; simpl.
  - by rewrite Hget.
  - rewrite dict_get_set. simpl.
    induction by_agent as [| [k0 v0] d IH]; simpl in *.
    + by rewrite decide_True.
    + case_decide; [done |]. simpl. rewrite decide_False by done.
      f_equal. by apply IH.
Qed.

Lemma group_by_agent_fold (a : string) (items : list Finding)
    (by_agent : list (string * list Finding)) :
  let step := λ (by_agent : list (string * list Finding)) (item : Finding),
    dict_set (agent item) (default [] (dict_get (agent item) by_agent) ++ [item])
      by_agent in
  let mine := filter (λ f, agent f = a) items in
  dict_get a (foldl step by_agent items) =
    (match mine with
     | [] => dict_get a by_agent
     | _ => Some (default [] (dict_get a by_agent) ++ mine)
     end) ∧
  (NoDup by_agent.*1 → NoDup (foldl step by_agent items).*1).
Proof.
  intros step. revert by_agent.
  induction items as [| item items IH]; intros by_agent; simpl.
  - done.
  - destruct (IH (step by_agent item)) as (Hget & Hnd). split.
    + rewrite Hget. unfold step.
      destruct (decide (agent item = a)) as [<- | Hne].
      * rewrite filter_cons_True by done. rewrite dict_get_set. simpl.
        destruct (filter _ items); simpl; by rewrite <- ?app_assoc, ?app_nil_r.
      * rewrite filter_cons_False by done.
        by rewrite dict_get_set_ne by done.
    + intros Hg. apply Hnd. unfold step. by apply dict_set_NoDup.
Qed.

(** X14: the groups the [validate] command prints: the group of an agent
    is the list of its findings in the order of the report, an agent
    without finding has no group, and no agent has two groups. *)
Theorem groups_are_the_findings_of_an_agent (items : list Finding) (a : string) :
  dict_get a (Cli.group_by_agent items) =
    (match filter (λ f, agent f = a) items with
     | [] => None
     | mine => Some mine
     end) ∧
  NoDup (Cli.group_by_agent items).*1.
Proof.
  unfold Cli.group_by_agent.
  rewrite (foldl_pointwise _
    (λ (by_agent : list (string * list Finding)) (item : Finding),
       dict_set (agent item) (default [] (dict_get (agent item) by_agent) ++ [item])
         by_agent)) by (intros; apply group_step_once).
  destruct (group_by_agent_fold a items []) as (Hget & Hnd). simpl in *.
  split; [| apply Hnd; constructor].
  rewrite Hget. by destruct (filter _ items).
Qed.

(** X15: the [validate] command exits with status 0 exactly when the
    project path exists, is a directory and the pass succeeds; warnings
    alone never make it fail. *)
Theorem validate_exit_status fs is_dir project_path reg :
  ∃ out, validate_agent_standards fs project_path reg = Some out ∧
         Cli.validate fs is_dir project_path reg =
           Some (if fs_exists fs project_path && is_dir project_path && success out
                 then 0 else 1).
Proof.
  destruct (validate_all_outcome fs (__init__ project_path reg))
    as (out & Hout & Hcases).
  exists out. split; [exact Hout |]. unfold Cli.validate.
  destruct (fs_exists fs project_path); [| done].
  destruct (is_dir project_path); [| done]. simpl.
  unfold validate_agent_standards. rewrite Hout. simpl.
  destruct Hcases as [[_ ->] | (_ & _ & Hi & _ & Hs)]; [done |].
  rewrite Hs, Hi.
  destruct (issues (final out)); [by destruct (out_warnings out) | done].
Qed.

(** ** Installed agents *)

Lemma detect_installed_fold env (reg : list (string * AgentConfig)) (installed : list string) :
  foldl (λ installed item,
           let '(agent_key, config) := item in
           if decide (agent_key = "all") then installed
           else if negb (requires_cli config) then installed ++ [agent_key]
           else if System.check_tool env agent_key then installed ++ [agent_key]
           else installed)
        installed reg =
  installed ++
    (filter (λ item : string * AgentConfig,
               item.1 ≠ "all" ∧
               (requires_cli item.2 = false ∨ System.check_tool env item.1 = true))
            reg).*1.
Proof.
  revert installed.
  induction reg as [| [k cfg] reg IH]; intros installed; simpl.
  - by rewrite app_nil_r.
  - rewrite IH.
    destruct (decide (k = "all")) as [-> | Hne].
    { rewrite filter_cons_False; [done |]. simpl. by intros [? _]. }
    destruct (requires_cli cfg) eqn:Hcli; simpl.
    + destruct (System.check_tool env k) eqn:Htool.
      * rewrite filter_cons_True; [by rewrite <- app_assoc |].
        simpl. split; [done | by right].
      * rewrite filter_cons_False; [done |]. simpl.
        intros [_ [? | ?]]; congruence.
    + rewrite filter_cons_True; [by rewrite <- app_assoc |].
      simpl. split; [done | by left].
Qed.

(** X16: an agent is reported as installed exactly when the registry has
    it under a key other than [all] and it either needs no command-line
    tool or its tool is found; the agents come in the order of the
    registry. *)
Theorem installed_agents_spec env reg :
  (∀ k, k ∈ System.detect_installed_agents env reg ↔
        ∃ cfg, (k, cfg) ∈ reg ∧ k ≠ "all" ∧
               (requires_cli cfg = false ∨ System.check_tool env k = true)) ∧
  System.detect_installed_agents env reg `sublist_of` reg.*1.
Proof.
  unfold System.detect_installed_agents.
  rewrite (detect_installed_fold env reg []). simpl. split.
  - intros k. rewrite list_elem_of_fmap. split.
    + intros ([k' cfg] & -> & Hin).
      apply list_elem_of_filter in Hin as [[Hne Hok] Hin].
      by exists cfg.
    + intros (cfg & Hin & Hne & Hok). exists (k, cfg). split; [done |].
      by apply list_elem_of_filter.
  - apply fmap_sublist, sublist_filter.
Qed.

(** ** The mode of a script *)

Lemma land_bit (m k : Z) :
  (0 ≤ k)%Z → (Z.land m (2 ^ k) ≠ 0)%Z ↔ Z.testbit m k = true.
Proof.
  intros Hk. split.
  - intros Hne. destruct (Z.testbit m k) eqn:Hbit; [done |].
    exfalso. apply Hne. apply Z.bits_inj'. intros n Hn.
    rewrite Z.land_spec, Z.bits_0, Z.pow2_bits_eqb by done.
    destruct (Z.eqb_spec k n) as [-> | ?]; [by rewrite Hbit | by rewrite andb_false_r].
  - intros Hbit Heq. apply (f_equal (λ z, Z.testbit z k)) in Heq.
    rewrite Z.land_spec, Z.bits_0, Hbit, Z.pow2_bits_true in Heq by done. done.
Qed.

Lemma lor_bit (m k n : Z) :
  (0 ≤ k)%Z → Z.testbit (Z.lor m (2 ^ k)) n = Z.testbit m n || (k =? n)%Z.
Proof. intros Hk. by rewrite Z.lor_spec, Z.pow2_bits_eqb. Qed.

Lemma if_land_bit {A : Type} (m k : Z) (x y : A) :
  (0 ≤ k)%Z →
  (if decide (Z.land m (2 ^ k) ≠ 0)%Z then x else y) =
  (if Z.testbit m k then x else y).
Proof.
  intros Hk. destruct (Z.testbit m k) eqn:Hbit.
  - by rewrite decide_True by (by apply land_bit).
  - rewrite decide_False; [done |]. rewrite land_bit by done. by rewrite Hbit.
Qed.

Lemma if_land_no_bit {A : Type} (m k : Z) (x y : A) :
  (0 ≤ k)%Z →
  (if decide (Z.land m (2 ^ k) = 0)%Z then x else y) =
  (if Z.testbit m k then y else x).
Proof.
  intros Hk. rewrite <- (if_land_bit m k y x Hk).
  destruct (decide (Z.land m (2 ^ k) = 0)%Z);
    [by rewrite decide_False by tauto | by rewrite decide_True].
Qed.

(** X17: the mode given to a script: the owner may always execute it,
    the group and the others may execute it when they may read it, and no
    other bit of the mode changes (bit 6 is [0o100], bits 3 and 5 are
    [0o010] and [0o040], bits 0 and 2 are [0o001] and [0o004]). *)
Theorem new_mode_bits (mode n : Z) :
  Z.testbit (System.new_mode mode) n =
    Z.testbit mode n || (n =? 6)%Z
    || ((n =? 3)%Z && Z.testbit mode 5)
    || ((n =? 0)%Z && Z.testbit mode 2).
Proof.
  unfold System.new_mode. cbv zeta.
  rewrite (if_land_bit mode 8), (if_land_bit mode 5), (if_land_bit mode 2) by lia.
  rewrite (if_land_no_bit _ 6) by lia.
  destruct (Z.testbit mode 8), (Z.testbit mode 5) eqn:H5, (Z.testbit mode 2) eqn:H2;
    change 64%Z with (2 ^ 6)%Z; change 8%Z with (2 ^ 3)%Z;
    change 1%Z with (2 ^ 0)%Z;
    rewrite ?Z.lor_spec, ?Z.pow2_bits_true, ?(Z.pow2_bits_false _ 6) by lia;
    rewrite ?orb_false_r, ?orb_true_r;
    try destruct (Z.testbit mode 6) eqn:H6;
    rewrite ?Z.lor_spec, ?Z.pow2_bits_eqb by lia;
    rewrite ?(Z.eqb_sym n);
    destruct (Z.eqb_spec 6 n), (Z.eqb_spec 3 n), (Z.eqb_spec 0 n);
    subst; try lia;
    rewrite ?H6, ?H5, ?H2;
    cbn [orb andb]; rewrite ?orb_true_r, ?orb_false_r; done.
Qed.

(** ** Making scripts executable *)

Lemma chmod_fold (all scripts : list System.Script) (r : System.Chmods) :
  let eligible := λ (entry : string * Z),
    ∃ script, script ∈ all ∧ entry.1 = System.script_path script ∧
      System.is_symlink script = false ∧ System.is_file script = true ∧
      System.first_two script = Some "#!" ∧
      Z.land (System.st_mode script) 73 = 0%Z ∧
      System.chmod_raises script = None ∧
      entry.2 = System.new_mode (System.st_mode script) in
  scripts ⊆ all →
  Forall eligible (System.chmods r) →
  System.updated r = length (System.chmods r) →
  let r' := foldl System.chmod_step r scripts in
  Forall eligible (System.chmods r') ∧
  System.updated r' = length (System.chmods r') ∧
  length (System.chmods r') + length (System.failures r') ≤
    length (System.chmods r) + length (System.failures r) + length scripts.
Proof.
  intros eligible. revert r.
  induction scripts as [| script scripts IH]; intros r Hsub Hall Hupd; simpl.
  - repeat split; [done | done | lia].
  - assert (let r1 := System.chmod_step r script in
            Forall eligible (System.chmods r1) ∧
            System.updated r1 = length (System.chmods r1) ∧
            length (System.chmods r1) + length (System.failures r1) ≤
              length (System.chmods r) + length (System.failures r) + 1)
      as (Hall1 & Hupd1 & Hlen1).
    { unfold System.chmod_step.
      destruct (System.is_symlink script) eqn:Hlink; simpl;
        [repeat split; [done | done | lia] |].
      destruct (System.is_file script) eqn:Hfile; simpl;
        [| repeat split; [done | done | lia]].
      destruct (System.first_two script) as [magic |] eqn:Hmagic;
        [| repeat split; [done | done | lia]].
      destruct (decide (magic ≠ "#!")) as [| Hshebang%dec_stable];
        [repeat split; [done | done | lia] |].
      destruct (decide (Z.land (System.st_mode script) 73 ≠ 0)%Z)
        as [| Hmode%dec_stable]; [repeat split; [done | done | lia] |].
      destruct (System.chmod_raises script) as [e |] eqn:Hchmod; simpl.
      - rewrite length_app. simpl. repeat split; [done | done | lia].
      - rewrite length_app. simpl. split; [| split; lia].
        apply Forall_app. split; [done |]. constructor; [| done].
        exists script. subst magic. repeat split; try done. set_solver. }
    destruct (IH (System.chmod_step r script)) as (Hall2 & Hupd2 & Hlen2);
      [set_solver | done | done |].
    repeat split; [done | done | lia].
Qed.

(** X18: [ensure_executable_scripts] changes the mode only of regular
    files that are no symbolic links, start with [#!] and have no execute
    bit at all, and gives each the mode computed from its own; the count
    of updated scripts is the number of modes set, the modes set and the
    failures are together no more than the scripts, and nothing is done
    on Windows or without the scripts directory. *)
Theorem scripts_made_executable os_nt root_is_dir scripts :
  let r := System.ensure_executable_scripts os_nt root_is_dir scripts in
  Forall (λ entry : string * Z,
            ∃ script, script ∈ scripts ∧ entry.1 = System.script_path script ∧
              System.is_symlink script = false ∧ System.is_file script = true ∧
              System.first_two script = Some "#!" ∧
              Z.land (System.st_mode script) 73 = 0%Z ∧
              System.chmod_raises script = None ∧
              entry.2 = System.new_mode (System.st_mode script))
         (System.chmods r) ∧
  System.updated r = length (System.chmods r) ∧
  length (System.chmods r) + length (System.failures r) ≤ length scripts ∧
  (os_nt = true ∨ root_is_dir = false →
   System.chmods r = [] ∧ System.failures r = []).
Proof.
  intros r. unfold r, System.ensure_executable_scripts.
  destruct os_nt; simpl; [repeat split; try done; try constructor; lia |].
  destruct root_is_dir; simpl; [| repeat split; try done; try constructor; lia].
  destruct (chmod_fold scripts scripts
              {| System.chmods := []; System.failures := []; System.updated := 0 |})
    as (Hall & Hupd & Hlen); [done | constructor | done |].
  simpl in Hlen. split; [done |]. split; [done |]. split; [lia |].
  by intros [? | ?].
Qed.
